(** * Order placement and inventory in the shop GraphQL API

    A shallow embedding of [shop/models.py] and of the mutations of
    [shop/graphql.py], and the properties of order placement
    ([CreateOrder.mutate]) and of product stock that follow from the code.

    Conventions of the embedding.
    - Primary keys, foreign keys, quantities, stock counts and timestamps are
      integers ([Z]).
    - A [DecimalField(max_digits=10, decimal_places=2)] value is held as its
      exact number of hundredths, so [Decimal] addition and the product of a
      [Decimal] by an [int] are integer addition and multiplication.  The
      bound [max_digits] of the columns is not part of the embedding.
    - Tables that are read and rewritten by primary key ([Store], [Product],
      [Review]) are finite maps from the key to the row; the two tables that
      order placement appends to ([Order], [OrderItem]) are lists of rows in
      insertion order.
    - Every table has the sequence that numbers its next row; an [INSERT]
      whose key is already taken is refused by the store with
      [IntegrityError].
    - No mutation opens a transaction: a [raise] leaves the database as the
      statements before it made it.  A mutation is therefore a function from
      the database to the database it leaves and either an error or a
      payload.
    - The resolvers of [Query] only read; the operations that can change the
      database are the ten fields of [Mutation]. *)

From Stdlib Require Import ZArith String List Lia.
From stdpp Require Import base option list gmap fin_maps.

Local Open Scope Z_scope.

(** ** Data model ([shop/models.py]) *)

Record Store := {
  store_name : string;
  store_owner : Z
}.

Record Product := {
  product_name : string;
  product_store : Z;
  product_price : Z;
  product_stock : Z;
  product_description : string
}.

Record Order := {
  order_id : Z;
  order_user : Z;
  order_total : Z;
  order_ordered_at : Z
}.

Record OrderItem := {
  oi_id : Z;
  oi_order : Z;
  oi_product : Z;
  oi_quantity : Z;
  oi_price : Z
}.

Record Review := {
  review_product : Z;
  review_user : Z;
  review_rating : Z;
  review_comment : string;
  review_created_at : Z
}.

Record DB := {
  stores : gmap Z Store;
  products : gmap Z Product;
  orders : list Order;
  order_items : list OrderItem;
  reviews : gmap Z Review;
  store_seq : Z;
  product_seq : Z;
  order_seq : Z;
  order_item_seq : Z;
  review_seq : Z
}.

Definition empty_db : DB := {|
  stores := ∅; products := ∅; orders := []; order_items := []; reviews := ∅;
  store_seq := 1; product_seq := 1; order_seq := 1; order_item_seq := 1;
  review_seq := 1
|}.

(** ** Requests and errors *)

(** [info.context.user]: Django's [AnonymousUser], or a row of the user
    table, known by its key. *)
Inductive RequestUser :=
| AnonymousUser
| LoggedIn (uid : Z).

(** What a resolver reads from its surroundings: the caller, and the clock
    that [auto_now_add] fields take their value from. *)
Record Request := {
  req_user : RequestUser;
  req_now : Z
}.

(** The [GraphQLError]s the mutations raise, by message, and the store's
    [IntegrityError]. *)
Inductive GraphQLError :=
| AuthenticationRequired
| OrderEmpty
| StoreNotFound (id : Z)
| ProductNotFound (id : Z)
| ReviewNotFound (id : Z)
| PermissionDenied (message : string)
| PriceNegative
| StockNegative
| RatingOutOfRange
| AlreadyReviewed
| QuantityNotPositive
| NotEnoughStock (name : string) (available : Z)
| IntegrityError.

(** ** Mutations as state transformers that may raise *)

Definition M (A : Type) : Type := DB → DB * (GraphQLError + A).

#[global] Instance M_ret : MRet M := λ A (a : A) db, (db, inr a).

#[global] Instance M_bind : MBind M := λ A B (f : A → M B) (m : M A) db,
  match m db with
  | (db', inl e) => (db', inl e)
  | (db', inr a) => f a db'
  end.

Definition raise {A : Type} (e : GraphQLError) : M A := λ db, (db, inl e).

Definition gets {A : Type} (f : DB → A) : M A := λ db, (db, inr (f db)).

Definition modify (f : DB → DB) : M unit := λ db, (f db, inr tt).

(** The database a mutation leaves, and what it answers. *)
Definition db_after {A : Type} (m : M A) (db : DB) : DB := fst (m db).
Definition answer {A : Type} (m : M A) (db : DB) : GraphQLError + A := snd (m db).

(** ** The store: field writes *)

Definition with_stores (f : gmap Z Store → gmap Z Store) (db : DB) : DB :=
  {| stores := f (stores db); products := products db; orders := orders db;
     order_items := order_items db; reviews := reviews db;
     store_seq := store_seq db; product_seq := product_seq db;
     order_seq := order_seq db; order_item_seq := order_item_seq db;
     review_seq := review_seq db |}.

Definition with_products (f : gmap Z Product → gmap Z Product) (db : DB) : DB :=
  {| stores := stores db; products := f (products db); orders := orders db;
     order_items := order_items db; reviews := reviews db;
     store_seq := store_seq db; product_seq := product_seq db;
     order_seq := order_seq db; order_item_seq := order_item_seq db;
     review_seq := review_seq db |}.

Definition with_orders (f : list Order → list Order) (db : DB) : DB :=
  {| stores := stores db; products := products db; orders := f (orders db);
     order_items := order_items db; reviews := reviews db;
     store_seq := store_seq db; product_seq := product_seq db;
     order_seq := order_seq db; order_item_seq := order_item_seq db;
     review_seq := review_seq db |}.

Definition with_order_items (f : list OrderItem → list OrderItem) (db : DB) : DB :=
  {| stores := stores db; products := products db; orders := orders db;
     order_items := f (order_items db); reviews := reviews db;
     store_seq := store_seq db; product_seq := product_seq db;
     order_seq := order_seq db; order_item_seq := order_item_seq db;
     review_seq := review_seq db |}.

Definition with_reviews (f : gmap Z Review → gmap Z Review) (db : DB) : DB :=
  {| stores := stores db; products := products db; orders := orders db;
     order_items := order_items db; reviews := f (reviews db);
     store_seq := store_seq db; product_seq := product_seq db;
     order_seq := order_seq db; order_item_seq := order_item_seq db;
     review_seq := review_seq db |}.

Definition bump_store_seq (db : DB) : DB :=
  {| stores := stores db; products := products db; orders := orders db;
     order_items := order_items db; reviews := reviews db;
     store_seq := store_seq db + 1; product_seq := product_seq db;
     order_seq := order_seq db; order_item_seq := order_item_seq db;
     review_seq := review_seq db |}.

Definition bump_product_seq (db : DB) : DB :=
  {| stores := stores db; products := products db; orders := orders db;
     order_items := order_items db; reviews := reviews db;
     store_seq := store_seq db; product_seq := product_seq db + 1;
     order_seq := order_seq db; order_item_seq := order_item_seq db;
     review_seq := review_seq db |}.

Definition bump_order_seq (db : DB) : DB :=
  {| stores := stores db; products := products db; orders := orders db;
     order_items := order_items db; reviews := reviews db;
     store_seq := store_seq db; product_seq := product_seq db;
     order_seq := order_seq db + 1; order_item_seq := order_item_seq db;
     review_seq := review_seq db |}.

Definition bump_order_item_seq (db : DB) : DB :=
  {| stores := stores db; products := products db; orders := orders db;
     order_items := order_items db; reviews := reviews db;
     store_seq := store_seq db; product_seq := product_seq db;
     order_seq := order_seq db; order_item_seq := order_item_seq db + 1;
     review_seq := review_seq db |}.

Definition bump_review_seq (db : DB) : DB :=
  {| stores := stores db; products := products db; orders := orders db;
     order_items := order_items db; reviews := reviews db;
     store_seq := store_seq db; product_seq := product_seq db;
     order_seq := order_seq db; order_item_seq := order_item_seq db;
     review_seq := review_seq db + 1 |}.

(** ** The store: one statement each *)

(** A model instance in memory: the key it was loaded under and its fields.
    Two [get]s of the same key give two instances; writing a field of one
    is not seen through the other. *)
Record ProductObj := {
  obj_pk : Z;
  obj_row : Product
}.

(** [models.Store.objects.get(id=id)], with the handler that turns
    [DoesNotExist] into the resolver's error. *)
Definition get_store (id : Z) : M Store := λ db,
  match stores db !! id with
  | Some s => (db, inr s)
  | None => (db, inl (StoreNotFound id))
  end.

(** [models.Product.objects.get(id=id)]. *)
Definition get_product (id : Z) : M ProductObj := λ db,
  match products db !! id with
  | Some p => (db, inr {| obj_pk := id; obj_row := p |})
  | None => (db, inl (ProductNotFound id))
  end.

(** [models.Product.objects.select_related("store").get(id=id)]: the join
    with the store table finds the product together with its store. *)
Definition get_product_with_store (id : Z) : M (ProductObj * Store) := λ db,
  match products db !! id with
  | Some p =>
      match stores db !! product_store p with
      | Some s => (db, inr ({| obj_pk := id; obj_row := p |}, s))
      | None => (db, inl (ProductNotFound id))
      end
  | None => (db, inl (ProductNotFound id))
  end.

(** [models.Review.objects.get(id=id)]. *)
Definition get_review (id : Z) : M Review := λ db,
  match reviews db !! id with
  | Some r => (db, inr r)
  | None => (db, inl (ReviewNotFound id))
  end.

Definition order_id_taken (id : Z) (os : list Order) : bool :=
  existsb (λ o, order_id o =? id) os.

Definition order_item_id_taken (id : Z) (its : list OrderItem) : bool :=
  existsb (λ it, oi_id it =? id) its.

(** [models.Store.objects.create(name=..., owner=...)]. *)
Definition objects_create_store (s : Store) : M Z := λ db,
  let id := store_seq db in
  match stores db !! id with
  | Some _ => (db, inl IntegrityError)
  | None => (bump_store_seq (with_stores (insert id s) db), inr id)
  end.

(** [models.Product.objects.create(...)]. *)
Definition objects_create_product (p : Product) : M ProductObj := λ db,
  let id := product_seq db in
  match products db !! id with
  | Some _ => (db, inl IntegrityError)
  | None =>
      (bump_product_seq (with_products (insert id p) db),
       inr {| obj_pk := id; obj_row := p |})
  end.

(** [models.Review.objects.create(...)]. *)
Definition objects_create_review (r : Review) : M Z := λ db,
  let id := review_seq db in
  match reviews db !! id with
  | Some _ => (db, inl IntegrityError)
  | None => (bump_review_seq (with_reviews (insert id r) db), inr id)
  end.

(** [models.Order.objects.create(user=user, total=total)]; [ordered_at] is
    [auto_now_add]. *)
Definition objects_create_order (user total now : Z) : M Order := λ db,
  let o := {| order_id := order_seq db; order_user := user;
              order_total := total; order_ordered_at := now |} in
  if order_id_taken (order_seq db) (orders db)
  then (db, inl IntegrityError)
  else (bump_order_seq (with_orders (λ os, os ++ [o]) db), inr o).

(** [models.OrderItem.objects.create(order=..., product=..., quantity=...,
    price=...)]. *)
Definition objects_create_order_item (order product quantity price : Z)
  : M OrderItem := λ db,
  let it := {| oi_id := order_item_seq db; oi_order := order;
               oi_product := product; oi_quantity := quantity;
               oi_price := price |} in
  if order_item_id_taken (order_item_seq db) (order_items db)
  then (db, inl IntegrityError)
  else (bump_order_item_seq (with_order_items (λ its, its ++ [it]) db), inr it).

(** [product.save()]: every field of the instance is written to the row of
    its key. *)
Definition save_product (p : ProductObj) : M unit :=
  modify (with_products (insert (obj_pk p) (obj_row p))).

(** [store.save()] and [review.save()]. *)
Definition save_store (id : Z) (s : Store) : M unit :=
  modify (with_stores (insert id s)).

Definition save_review (id : Z) (r : Review) : M unit :=
  modify (with_reviews (insert id r)).

(** ** Order placement ([CreateOrder.mutate]) *)

Record OrderItemInput := {
  product_id : Z;
  quantity : Z
}.

(** An entry of [order_items_data]. *)
Record ItemData := {
  data_product : ProductObj;
  data_quantity : Z;
  data_price : Z
}.

(** [user = info.context.user; if not user.is_authenticated: raise ...]. *)
Definition require_authenticated (req : Request) : M Z :=
  match req_user req with
  | AnonymousUser => raise AuthenticationRequired
  | LoggedIn uid => mret uid
  end.

Definition set_stock (stock : Z) (p : Product) : Product :=
  {| product_name := product_name p; product_store := product_store p;
     product_price := product_price p; product_stock := stock;
     product_description := product_description p |}.

(** The body of the first loop, for one line of the cart: [total] and
    [order_items_data] come in and go out. *)
Definition validate_item (item : OrderItemInput) (total : Z)
    (order_items_data : list ItemData) : M (Z * list ItemData) :=
  product ← get_product (product_id item);
  if quantity item <=? 0 then raise QuantityNotPositive
  else if product_stock (obj_row product) <? quantity item
  then raise (NotEnoughStock (product_name (obj_row product))
                             (product_stock (obj_row product)))
  else
    let item_total := product_price (obj_row product) * quantity item in
    mret (total + item_total,
          order_items_data ++
          [{| data_product := product; data_quantity := quantity item;
              data_price := item_total |}]).

(** The first loop. *)
Fixpoint validate_items (items : list OrderItemInput) (total : Z)
    (order_items_data : list ItemData) : M (Z * list ItemData) :=
  match items with
  | [] => mret (total, order_items_data)
  | item :: rest =>
      '(total, order_items_data) ← validate_item item total order_items_data;
      validate_items rest total order_items_data
  end.

(** [product = item_data['product']; product.stock -= item_data['quantity']]:
    the instance the first loop kept for this line, with its own stock
    field lowered. *)
Definition decremented (item_data : ItemData) : ProductObj :=
  let product := data_product item_data in
  {| obj_pk := obj_pk product;
     obj_row := set_stock (product_stock (obj_row product)
                           - data_quantity item_data) (obj_row product) |}.

(** The second loop: the item row, then the stock of the line's own
    instance, then [product.save()]. *)
Fixpoint persist_items (order : Order) (order_items_data : list ItemData)
    : M unit :=
  match order_items_data with
  | [] => mret tt
  | item_data :: rest =>
      objects_create_order_item (order_id order)
        (obj_pk (data_product item_data)) (data_quantity item_data)
        (data_price item_data);;
      save_product (decremented item_data);;
      persist_items order rest
  end.

Definition create_order (req : Request) (items : list OrderItemInput) : M Order :=
  user ← require_authenticated req;
  match items with
  | [] => raise OrderEmpty
  | _ :: _ =>
      '(total, order_items_data) ← validate_items items 0 [];
      order ← objects_create_order user total (req_now req);
      persist_items order order_items_data;;
      mret order
  end.

(** ** Observations on the database *)

Definition stock_of (db : DB) (p : Z) : option Z :=
  product_stock <$> products db !! p.

Definition sum_Z (l : list Z) : Z := foldr Z.add 0 l.

(** The rows of the item table that sell product [p], and the units they
    sell together. *)
Definition items_of_product (db : DB) (p : Z) : list OrderItem :=
  filter (λ it, oi_product it = p) (order_items db).

Definition reserved (db : DB) (p : Z) : Z :=
  sum_Z (oi_quantity <$> items_of_product db p).

(** [order.items]: the rows of the item table that point to the order. *)
Definition items_of_order (db : DB) (oid : Z) : list OrderItem :=
  filter (λ it, oi_order it = oid) (order_items db).

(** ** The other mutations of [Mutation] *)

(** [stock] and [description] as the schema hands them on, their defaults
    ([0] and the empty string) filled in. *)
Record CreateProductInput := {
  cpi_name : string;
  cpi_store_id : Z;
  cpi_price : Z;
  cpi_stock : Z;
  cpi_description : string
}.

Record UpdateProductInput := {
  upi_name : option string;
  upi_price : option Z;
  upi_stock : option Z;
  upi_description : option string
}.

Record CreateReviewInput := {
  cri_product_id : Z;
  cri_rating : Z;
  cri_comment : string
}.

Definition create_store (req : Request) (name : string) : M (Z * Store) :=
  user ← require_authenticated req;
  let store := {| store_name := name; store_owner := user |} in
  id ← objects_create_store store;
  mret (id, store).

(** [UpdateStore.mutate]; its [print(user)] writes to the console only. *)
Definition update_store (req : Request) (id : Z) (name : string) : M (Z * Store) :=
  user ← require_authenticated req;
  store ← get_store id;
  if bool_decide (store_owner store ≠ user)
  then raise (PermissionDenied "You don't have permission to update this store")
  else
    let store := {| store_name := name; store_owner := store_owner store |} in
    save_store id store;;
    mret (id, store).

(** Is [p] the key of a product of store [s]? *)
Definition product_in_store (db : DB) (s p : Z) : bool :=
  match products db !! p with
  | Some row => bool_decide (product_store row = s)
  | None => false
  end.

(** [store.delete()]: [on_delete=CASCADE] takes the store's products, and
    with each product its order items and its reviews. *)
Definition cascade_delete_store (s : Z) (db : DB) : DB :=
  with_stores (delete s)
   (with_products (filter (λ kv, product_store kv.2 ≠ s))
     (with_reviews (filter (λ kv, product_in_store db s (review_product kv.2) = false))
       (with_order_items (filter (λ it, product_in_store db s (oi_product it) = false))
         db))).

(** [product.delete()]: [on_delete=CASCADE] takes the order items and the
    reviews of the product. *)
Definition cascade_delete_product (p : Z) (db : DB) : DB :=
  with_products (delete p)
   (with_reviews (filter (λ kv, review_product kv.2 ≠ p))
     (with_order_items (filter (λ it, oi_product it ≠ p)) db)).

Definition delete_store (req : Request) (id : Z) : M bool :=
  user ← require_authenticated req;
  store ← get_store id;
  if bool_decide (store_owner store ≠ user)
  then raise (PermissionDenied "You don't have permission to delete this store")
  else
    modify (cascade_delete_store id);;
    mret true.

Definition create_product (req : Request) (input : CreateProductInput)
    : M ProductObj :=
  user ← require_authenticated req;
  store ← get_store (cpi_store_id input);
  if bool_decide (store_owner store ≠ user)
  then raise (PermissionDenied "You don't have permission to add products to this store")
  else if cpi_price input <? 0 then raise PriceNegative
  else if cpi_stock input <? 0 then raise StockNegative
  else
    objects_create_product
      {| product_name := cpi_name input; product_store := cpi_store_id input;
         product_price := cpi_price input; product_stock := cpi_stock input;
         product_description := cpi_description input |}.

Definition set_name (name : string) (p : Product) : Product :=
  {| product_name := name; product_store := product_store p;
     product_price := product_price p; product_stock := product_stock p;
     product_description := product_description p |}.

Definition set_price (price : Z) (p : Product) : Product :=
  {| product_name := product_name p; product_store := product_store p;
     product_price := price; product_stock := product_stock p;
     product_description := product_description p |}.

Definition set_description (description : string) (p : Product) : Product :=
  {| product_name := product_name p; product_store := product_store p;
     product_price := product_price p; product_stock := product_stock p;
     product_description := description |}.

(** The four [if input.f is not None] blocks, on the instance in memory. *)
Definition apply_name (input : UpdateProductInput) (p : Product) : M Product :=
  match upi_name input with
  | Some name => mret (set_name name p)
  | None => mret p
  end.

Definition apply_price (input : UpdateProductInput) (p : Product) : M Product :=
  match upi_price input with
  | Some price =>
      if price <? 0 then raise PriceNegative else mret (set_price price p)
  | None => mret p
  end.

Definition apply_stock (input : UpdateProductInput) (p : Product) : M Product :=
  match upi_stock input with
  | Some stock =>
      if stock <? 0 then raise StockNegative else mret (set_stock stock p)
  | None => mret p
  end.

Definition apply_description (input : UpdateProductInput) (p : Product) : M Product :=
  match upi_description input with
  | Some description => mret (set_description description p)
  | None => mret p
  end.

Definition update_product (req : Request) (id : Z) (input : UpdateProductInput)
    : M ProductObj :=
  user ← require_authenticated req;
  '(product, store) ← get_product_with_store id;
  if bool_decide (store_owner store ≠ user)
  then raise (PermissionDenied "You don't have permission to update this product")
  else
    row ← apply_name input (obj_row product);
    row ← apply_price input row;
    row ← apply_stock input row;
    row ← apply_description input row;
    let product := {| obj_pk := id; obj_row := row |} in
    save_product product;;
    mret product.

Definition delete_product (req : Request) (id : Z) : M bool :=
  user ← require_authenticated req;
  '(product, store) ← get_product_with_store id;
  if bool_decide (store_owner store ≠ user)
  then raise (PermissionDenied "You don't have permission to delete this product")
  else
    modify (cascade_delete_product id);;
    mret true.

(** [models.Review.objects.filter(product=product, user=user).exists()]. *)
Definition review_exists (product user : Z) : M bool :=
  gets (λ db, bool_decide
    (map_Exists (λ _ r, review_product r = product ∧ review_user r = user)
       (reviews db))).

Definition create_review (req : Request) (input : CreateReviewInput)
    : M (Z * Review) :=
  user ← require_authenticated req;
  product ← get_product (cri_product_id input);
  if bool_decide (cri_rating input < 1 ∨ cri_rating input > 5)
  then raise RatingOutOfRange
  else
    reviewed ← review_exists (obj_pk product) user;
    if reviewed : bool then raise AlreadyReviewed
    else
      let review :=
        {| review_product := obj_pk product; review_user := user;
           review_rating := cri_rating input;
           review_comment := cri_comment input;
           review_created_at := req_now req |} in
      id ← objects_create_review review;
      mret (id, review).

Definition set_rating (rating : Z) (r : Review) : Review :=
  {| review_product := review_product r; review_user := review_user r;
     review_rating := rating; review_comment := review_comment r;
     review_created_at := review_created_at r |}.

Definition set_comment (comment : string) (r : Review) : Review :=
  {| review_product := review_product r; review_user := review_user r;
     review_rating := review_rating r; review_comment := comment;
     review_created_at := review_created_at r |}.

Definition apply_rating (rating : option Z) (r : Review) : M Review :=
  match rating with
  | Some rating =>
      if bool_decide (rating < 1 ∨ rating > 5) then raise RatingOutOfRange
      else mret (set_rating rating r)
  | None => mret r
  end.

Definition apply_comment (comment : option string) (r : Review) : M Review :=
  match comment with
  | Some comment => mret (set_comment comment r)
  | None => mret r
  end.

Definition update_review (req : Request) (id : Z) (rating : option Z)
    (comment : option string) : M (Z * Review) :=
  user ← require_authenticated req;
  review ← get_review id;
  if bool_decide (review_user review ≠ user)
  then raise (PermissionDenied "You don't have permission to update this review")
  else
    review ← apply_rating rating review;
    review ← apply_comment comment review;
    save_review id review;;
    mret (id, review).

Definition delete_review (req : Request) (id : Z) : M bool :=
  user ← require_authenticated req;
  review ← get_review id;
  if bool_decide (review_user review ≠ user)
  then raise (PermissionDenied "You don't have permission to delete this review")
  else
    modify (with_reviews (delete id));;
    mret true.

(** ** The operation set: the fields of [Mutation] *)

Inductive Mutation :=
| CreateStore (name : string)
| UpdateStore (id : Z) (name : string)
| DeleteStore (id : Z)
| CreateProduct (input : CreateProductInput)
| UpdateProduct (id : Z) (input : UpdateProductInput)
| DeleteProduct (id : Z)
| CreateReview (input : CreateReviewInput)
| UpdateReview (id : Z) (rating : option Z) (comment : option string)
| DeleteReview (id : Z)
| CreateOrder (items : list OrderItemInput).

Inductive Payload :=
| StorePayload (id : Z) (store : Store)
| ProductPayload (product : ProductObj)
| ReviewPayload (id : Z) (review : Review)
| OrderPayload (order : Order)
| SuccessPayload (success : bool).

Definition execute (req : Request) (mutation : Mutation) : M Payload :=
  match mutation with
  | CreateStore name => '(id, s) ← create_store req name; mret (StorePayload id s)
  | UpdateStore id name => '(id, s) ← update_store req id name; mret (StorePayload id s)
  | DeleteStore id => b ← delete_store req id; mret (SuccessPayload b)
  | CreateProduct input => p ← create_product req input; mret (ProductPayload p)
  | UpdateProduct id input => p ← update_product req id input; mret (ProductPayload p)
  | DeleteProduct id => b ← delete_product req id; mret (SuccessPayload b)
  | CreateReview input => '(id, r) ← create_review req input; mret (ReviewPayload id r)
  | UpdateReview id rating comment =>
      '(id, r) ← update_review req id rating comment; mret (ReviewPayload id r)
  | DeleteReview id => b ← delete_review req id; mret (SuccessPayload b)
  | CreateOrder items => o ← create_order req items; mret (OrderPayload o)
  end.

(** A history of requests, one after the other. *)
Fixpoint execute_all (calls : list (Request * Mutation)) (db : DB) : DB :=
  match calls with
  | [] => db
  | (req, mutation) :: rest => execute_all rest (db_after (execute req mutation) db)
  end.

(** ** Order placement, one statement at a time

    Requests are served side by side and [CreateOrder.mutate] holds no lock
    and opens no transaction, so between two of its statements another
    request may run some of its own.  A request in flight is a [Thread]: the
    point it has reached in [mutate] and its local variables.  [step] runs
    it up to and including its next statement on the database. *)

Inductive Thread :=
| Start (req : Request) (items : list OrderItemInput)
| Validating (user now : Z) (items : list OrderItemInput) (total : Z)
    (order_items_data : list ItemData)
| Creating (user now total : Z) (order_items_data : list ItemData)
| Persisting (order : Order) (order_items_data : list ItemData)
| Saving (order : Order) (item_data : ItemData) (rest : list ItemData)
| Finished (result : GraphQLError + Order).

Definition step (t : Thread) (db : DB) : DB * Thread :=
  match t with
  | Start req items =>
      match req_user req, items with
      | AnonymousUser, _ => (db, Finished (inl AuthenticationRequired))
      | LoggedIn _, [] => (db, Finished (inl OrderEmpty))
      | LoggedIn uid, _ :: _ => (db, Validating uid (req_now req) items 0 [])
      end
  | Validating user now [] total order_items_data =>
      (db, Creating user now total order_items_data)
  | Validating user now (item :: rest) total order_items_data =>
      match validate_item item total order_items_data db with
      | (db', inl e) => (db', Finished (inl e))
      | (db', inr (total', data')) => (db', Validating user now rest total' data')
      end
  | Creating user now total order_items_data =>
      match objects_create_order user total now db with
      | (db', inl e) => (db', Finished (inl e))
      | (db', inr order) => (db', Persisting order order_items_data)
      end
  | Persisting order [] => (db, Finished (inr order))
  | Persisting order (item_data :: rest) =>
      match objects_create_order_item (order_id order)
              (obj_pk (data_product item_data)) (data_quantity item_data)
              (data_price item_data) db with
      | (db', inl e) => (db', Finished (inl e))
      | (db', inr _) => (db', Saving order item_data rest)
      end
  | Saving order item_data rest =>
      (db_after (save_product (decremented item_data)) db, Persisting order rest)
  | Finished result => (db, Finished result)
  end.


(** Requests in flight together.  A schedule names, step after step, the
    request that moves. *)
Definition pool_step (i : nat) (cfg : DB * list Thread) : DB * list Thread :=
  match cfg.2 !! i with
  | Some t => let '(db', t') := step t cfg.1 in (db', <[i := t']> cfg.2)
  | None => cfg
  end.

Fixpoint run_schedule (schedule : list nat) (cfg : DB * list Thread)
    : DB * list Thread :=
  match schedule with
  | [] => cfg
  | i :: rest => run_schedule rest (pool_step i cfg)
  end.

(** ** Queries ([Query]) and the computed fields of the types

    A resolver of [Query] reads the database and answers rows or raises.
    Besides the errors of the mutations, a lookup of an order may find none,
    a [get] may find more than one row, and a slice may be asked with a
    negative bound.  The resolvers of users read Django's user table, which
    is not among the models of the shop, and [resolve_average_rating]
    answers a float; they are left out. *)

Inductive ResolverError :=
| Raised (e : GraphQLError)
| OrderNotFound (id : Z)
| MultipleObjectsReturned
| NegativeIndexing.

(** [resolve_store], [resolve_product] and [resolve_review]: [get] by key,
    [DoesNotExist] turned into the resolver's error. *)
Definition resolve_store (id : Z) (db : DB) : ResolverError + Store :=
  match stores db !! id with
  | Some s => inr s
  | None => inl (Raised (StoreNotFound id))
  end.


Definition resolve_review (id : Z) (db : DB) : ResolverError + Review :=
  match reviews db !! id with
  | Some r => inr r
  | None => inl (Raised (ReviewNotFound id))
  end.

(** [resolve_stores]: every row of the store table, in the order of the
    store. *)
Definition resolve_stores (db : DB) : list (Z * Store) :=
  map_to_list (stores db).

(** [if x:] on an optional [Int] or [Decimal] argument: absent and zero are
    both false. *)
Definition truthy (x : option Z) : option Z :=
  match x with
  | Some n => if n =? 0 then None else Some n
  | None => None
  end.

(** [queryset[offset:]] and [queryset[:first]]: a negative bound is refused
    by the queryset. *)
Definition slice_from {A} (offset : Z) (qs : list A) : ResolverError + list A :=
  if offset <? 0 then inl NegativeIndexing else inr (drop (Z.to_nat offset) qs).

Definition slice_to {A} (first : Z) (qs : list A) : ResolverError + list A :=
  if first <? 0 then inl NegativeIndexing else inr (take (Z.to_nat first) qs).

(** The [# Pagination] block of [resolve_products]. *)
Definition paginate {A} (first offset : option Z) (qs : list A)
    : ResolverError + list A :=
  match
    match truthy offset with
    | Some n => slice_from n qs
    | None => inr qs
    end
  with
  | inl e => inl e
  | inr qs =>
      match truthy first with
      | Some n => slice_to n qs
      | None => inr qs
      end
  end.

Section Search.

(** [icontains field needle]: the case-insensitive containment test of the
    store, which the source leaves to the database. *)
Variable icontains : string → string → bool.

(** The [# Filtering] block of [resolve_products], one [filter] after the
    other; an empty [search] is false like an absent one.  The queryset has
    no [order_by]: its rows come in the order of the store, here that of
    [map_to_list]. *)
Definition filter_search (search : option string) (qs : list (Z * Product))
    : list (Z * Product) :=
  match search with
  | Some (String _ _ as s) =>
      filter (λ kp, icontains (product_name kp.2) s
                    || icontains (product_description kp.2) s = true) qs
  | _ => qs
  end.

Definition filter_store (store_id : option Z) (qs : list (Z * Product))
    : list (Z * Product) :=
  match truthy store_id with
  | Some s => filter (λ kp, product_store kp.2 = s) qs
  | None => qs
  end.

Definition filter_min_price (min_price : option Z) (qs : list (Z * Product))
    : list (Z * Product) :=
  match truthy min_price with
  | Some n => filter (λ kp, n ≤ product_price kp.2) qs
  | None => qs
  end.

Definition filter_max_price (max_price : option Z) (qs : list (Z * Product))
    : list (Z * Product) :=
  match truthy max_price with
  | Some n => filter (λ kp, product_price kp.2 ≤ n) qs
  | None => qs
  end.

Definition resolve_products (search : option string)
    (store_id min_price max_price first offset : option Z) (db : DB)
    : ResolverError + list (Z * Product) :=
  let queryset := map_to_list (products db) in
  let queryset := filter_search search queryset in
  let queryset := filter_store store_id queryset in
  let queryset := filter_min_price min_price queryset in
  let queryset := filter_max_price max_price queryset in
  paginate first offset queryset.

End Search.

(** [resolve_reviews]. *)
Definition resolve_reviews (product_id : option Z) (db : DB) : list (Z * Review) :=
  match truthy product_id with
  | Some p => filter (λ kr, review_product kr.2 = p) (map_to_list (reviews db))
  | None => map_to_list (reviews db)
  end.

(** [resolve_order]: [get] on the order table. *)
Definition resolve_order (id : Z) (db : DB) : ResolverError + Order :=
  match filter (λ o, order_id o = id) (orders db) with
  | [] => inl (OrderNotFound id)
  | [o] => inr o
  | _ :: _ :: _ => inl MultipleObjectsReturned
  end.

(** [resolve_orders]: no check of the caller. *)
Definition resolve_orders (user_id : option Z) (db : DB) : list Order :=
  match truthy user_id with
  | Some u => filter (λ o, order_user o = u) (orders db)
  | None => orders db
  end.

Definition resolve_my_orders (req : Request) (db : DB) : ResolverError + list Order :=
  match req_user req with
  | AnonymousUser => inl (Raised AuthenticationRequired)
  | LoggedIn uid => inr (filter (λ o, order_user o = uid) (orders db))
  end.

(** [StoreType.resolve_total_products] and [ProductType.resolve_review_count]:
    [self.products.count()] and [self.reviews.count()]. *)
Definition resolve_total_products (store : Z) (db : DB) : nat :=
  size (filter (λ kp : Z * Product, product_store kp.2 = store) (products db)).

Definition resolve_review_count (product : Z) (db : DB) : nat :=
  size (filter (λ kr : Z * Review, review_product kr.2 = product) (reviews db)).

(** ** Sample data *)

Definition shelf (name : string) (price stock : Z) : Product :=
  {| product_name := name; product_store := 1; product_price := price;
     product_stock := stock; product_description := "" |}.

(** One store, owned by user 7, with one product of key 1. *)
Definition one_product_db (price stock : Z) : DB :=
  with_stores (insert 1 {| store_name := "corner"; store_owner := 7 |})
   (bump_store_seq
     (bump_product_seq
       (with_products (insert 1 (shelf "pen" price stock)) empty_db))).

Definition caller (uid : Z) : Request := {| req_user := LoggedIn uid; req_now := 100 |}.

Definition line (p q : Z) : OrderItemInput := {| product_id := p; quantity := q |}.

(** * Vocabulary of the statements *)

(** ** Proof automation *)

Ltac unfold_M :=
  unfold mbind, M_bind, mret, M_ret, raise, gets, modify, db_after, answer in *.

Ltac run_mutation :=
  unfold_M;
  unfold require_authenticated, get_store, get_product, get_product_with_store,
    get_review, objects_create_store, objects_create_product,
    objects_create_review, save_store, save_product, save_review,
    review_exists, apply_name, apply_price, apply_stock, apply_description,
    apply_rating, apply_comment;
  unfold_M;
  repeat case_match; simplify_eq; cbn [fst snd] in *.

Ltac owner_checked :=
  by match goal with H : bool_decide _ = false |- _ =>
    apply bool_decide_eq_false in H; apply dec_stable in H end.

(** ** The checks of the first loop *)

(** What the first loop keeps for a line whose product row is [row]. *)
Definition item_data_for (item : OrderItemInput) (row : Product) : ItemData :=
  {| data_product := {| obj_pk := product_id item; obj_row := row |};
     data_quantity := quantity item;
     data_price := product_price row * quantity item |}.

(** A line passes the three checks of the first loop on [db]: its product
    exists, its quantity is positive and no more than the stock the row
    shows. *)
Definition line_ok (db : DB) (item : OrderItemInput) : Prop :=
  ∃ row, products db !! product_id item = Some row
         ∧ 0 < quantity item ≤ product_stock row.

Definition checks (db : DB) (item : OrderItemInput) (d : ItemData) : Prop :=
  ∃ row, products db !! product_id item = Some row
         ∧ 0 < quantity item ≤ product_stock row
         ∧ d = item_data_for item row.

(** The errors of the first loop. *)
Inductive line_error : GraphQLError → Prop :=
| line_error_not_found id : line_error (ProductNotFound id)
| line_error_quantity : line_error QuantityNotPositive
| line_error_stock name available : line_error (NotEnoughStock name available).

(** The errors of the order-placement taxonomy that the cart itself causes:
    [EmptyCart], [InvalidQuantity], [ProductNotFound], [InsufficientStock]. *)
Inductive cart_error : GraphQLError → Prop :=
| cart_error_empty : cart_error OrderEmpty
| cart_error_quantity : cart_error QuantityNotPositive
| cart_error_not_found id : cart_error (ProductNotFound id)
| cart_error_stock name available : cart_error (NotEnoughStock name available).

(** ** The writes of the second loop *)

(** [product.save()] for a line, on the product table. *)
Definition save_row (m : gmap Z Product) (d : ItemData) : gmap Z Product :=
  <[obj_pk (data_product d) := obj_row (decremented d)]> m.

(** The item row that the second loop writes for an entry of
    [order_items_data]. *)
Definition sold (o : Order) (d : ItemData) (it : OrderItem) : Prop :=
  oi_order it = order_id o
  ∧ oi_product it = obj_pk (data_product d)
  ∧ oi_quantity it = data_quantity d
  ∧ oi_price it = data_price d.

(** Everything but the item table, the product table and the item sequence
    is as before. *)
Definition same_but_sales (db db' : DB) : Prop :=
  stores db' = stores db ∧ orders db' = orders db ∧ reviews db' = reviews db
  ∧ store_seq db' = store_seq db ∧ product_seq db' = product_seq db
  ∧ order_seq db' = order_seq db ∧ review_seq db' = review_seq db.

(** The order row that [CreateOrder.mutate] inserts on [db]. *)
Definition new_order (db : DB) (uid total now : Z) : Order :=
  {| order_id := order_seq db; order_user := uid; order_total := total;
     order_ordered_at := now |}.

Definition with_new_order (o : Order) (db : DB) : DB :=
  bump_order_seq (with_orders (λ os, os ++ [o]) db).

(** The lines of a cart that name product [p], and the last of them. *)
Definition lines_of (p : Z) (items : list OrderItemInput) : list OrderItemInput :=
  filter (λ item, product_id item = p) items.

Definition last_line (p : Z) (items : list OrderItemInput) : option OrderItemInput :=
  last (lines_of p items).

(** The item row of a line: the product and quantity of the line, and as
    price the unit price that [db] shows times the quantity. *)
Definition line_sold (db : DB) (o : Order) (item : OrderItemInput) (it : OrderItem)
    : Prop :=
  ∃ row, products db !! product_id item = Some row
         ∧ 0 < quantity item ≤ product_stock row
         ∧ oi_order it = order_id o
         ∧ oi_product it = product_id item
         ∧ oi_quantity it = quantity item
         ∧ oi_price it = product_price row * quantity item.

(** The price that [db] shows for the product of a line, charged on the
    item row of that line. *)
Definition priced_from (db : DB) (item : OrderItemInput) (it : OrderItem) : Prop :=
  ∃ row, products db !! product_id item = Some row
         ∧ oi_product it = product_id item
         ∧ oi_quantity it = quantity item
         ∧ oi_price it = product_price row * oi_quantity it.

(** ** Keys, sequences and the foreign key of items *)

(** Item keys below the item sequence: the next insertions are accepted. *)
Definition item_seq_ahead (db : DB) : Prop :=
  Forall (λ it, oi_id it < order_item_seq db) (order_items db).

Definition order_seq_ahead (db : DB) : Prop :=
  Forall (λ o, order_id o < order_seq db) (orders db).

(** The foreign key [OrderItem.order]: every item row points to a row of
    the order table. *)
Definition items_reference_orders (db : DB) : Prop :=
  Forall (λ it, ∃ o, o ∈ orders db ∧ order_id o = oi_order it) (order_items db).


(** ** Effects of the mutations *)

(** The effect of a mutation on the database, whatever it answers. *)
Inductive effect (req : Request) : Mutation → DB → DB → Prop :=
| effect_elsewhere mutation db db' :
    products db' = products db → orders db' = orders db →
    order_items db' = order_items db →
    order_seq db' = order_seq db → order_item_seq db' = order_item_seq db →
    effect req mutation db db'
| effect_create_product input db row :
    products db !! product_seq db = None →
    product_stock row = cpi_stock input → 0 ≤ cpi_stock input →
    effect req (CreateProduct input) db
      (bump_product_seq (with_products (insert (product_seq db) row) db))
| effect_update_product id input db row row' :
    products db !! id = Some row →
    product_stock row' = default (product_stock row) (upi_stock input) →
    0 ≤ default 0 (upi_stock input) →
    effect req (UpdateProduct id input) db (with_products (insert id row') db)
| effect_delete_product id db :
    is_Some (products db !! id) →
    effect req (DeleteProduct id) db (cascade_delete_product id db)
| effect_delete_store id db :
    effect req (DeleteStore id) db (cascade_delete_store id db)
| effect_create_order items db db' r :
    create_order req items db = (db', r) →
    effect req (CreateOrder items) db db'.

Definition stock_nonneg (db : DB) : Prop :=
  map_Forall (λ (_ : Z) (row : Product), 0 ≤ product_stock row) (products db).

(** Product [p] is in [db] and no longer in [db']. *)
Definition product_removed (db db' : DB) (p : Z) : Prop :=
  is_Some (products db !! p) ∧ ¬ is_Some (products db' !! p).

#[global] Instance product_removed_dec db db' p : Decision (product_removed db db' p).
Proof. unfold product_removed. apply _. Defined.


(** ** Requests in flight *)



(** An entry of [order_items_data] asks for no more than the stock that its
    own instance shows. *)
Definition item_data_ok (d : ItemData) : Prop :=
  data_quantity d ≤ product_stock (obj_row (data_product d)).

(** The entries a request in flight holds have passed the stock check. *)
Definition thread_ok (t : Thread) : Prop :=
  match t with
  | Start _ _ | Finished _ => True
  | Validating _ _ _ _ data | Creating _ _ _ data | Persisting _ data =>
      Forall item_data_ok data
  | Saving _ d rest => item_data_ok d ∧ Forall item_data_ok rest
  end.

(** A history of order placements. *)
Definition place_all (calls : list (Request * list OrderItemInput))
    : list (Request * Mutation) :=
  (λ c, (c.1, CreateOrder c.2)) <$> calls.

(** Order placements that have just arrived, none of them started. *)
Definition start_all (requests : list (Request * list OrderItemInput))
    : list Thread :=
  (λ c, Start c.1 c.2) <$> requests.

(** ** The outcome of each mutation *)

(** The row that [CreateProduct.mutate] inserts. *)
Definition product_of_input (input : CreateProductInput) : Product :=
  {| product_name := cpi_name input; product_store := cpi_store_id input;
     product_price := cpi_price input; product_stock := cpi_stock input;
     product_description := cpi_description input |}.

(** The row that [UpdateProduct.mutate] saves: every field the input
    carries, and the old value of every field it does not. *)
Definition updated_product (input : UpdateProductInput) (row : Product) : Product :=
  {| product_name := default (product_name row) (upi_name input);
     product_store := product_store row;
     product_price := default (product_price row) (upi_price input);
     product_stock := default (product_stock row) (upi_stock input);
     product_description :=
       default (product_description row) (upi_description input) |}.

(** The row that [CreateReview.mutate] inserts. *)
Definition review_of_input (input : CreateReviewInput) (uid now : Z) : Review :=
  {| review_product := cri_product_id input; review_user := uid;
     review_rating := cri_rating input; review_comment := cri_comment input;
     review_created_at := now |}.

(** The row that [UpdateReview.mutate] saves. *)
Definition updated_review (rating : option Z) (comment : option string)
    (r : Review) : Review :=
  {| review_product := review_product r; review_user := review_user r;
     review_rating := default (review_rating r) rating;
     review_comment := default (review_comment r) comment;
     review_created_at := review_created_at r |}.

(** User [user] has a review of product [product] in [db]. *)
Definition already_reviewed (db : DB) (product user : Z) : Prop :=
  map_Exists (λ (_ : Z) (r : Review),
                review_product r = product ∧ review_user r = user) (reviews db).

(** What a mutation answers and the database it leaves: refused with the
    database untouched, or the one write of the mutation; order placement
    is [create_order]. *)
Inductive outcome (req : Request)
    : Mutation → DB → DB → GraphQLError + Payload → Prop :=
| outcome_refused mutation db e :
    outcome req mutation db db (inl e)
| outcome_create_store name db uid :
    req_user req = LoggedIn uid →
    stores db !! store_seq db = None →
    outcome req (CreateStore name) db
      (bump_store_seq
         (with_stores (insert (store_seq db)
                         {| store_name := name; store_owner := uid |}) db))
      (inr (StorePayload (store_seq db)
              {| store_name := name; store_owner := uid |}))
| outcome_update_store id name db uid s :
    req_user req = LoggedIn uid →
    stores db !! id = Some s → store_owner s = uid →
    outcome req (UpdateStore id name) db
      (with_stores (insert id {| store_name := name; store_owner := store_owner s |}) db)
      (inr (StorePayload id {| store_name := name; store_owner := store_owner s |}))
| outcome_delete_store id db uid s :
    req_user req = LoggedIn uid →
    stores db !! id = Some s → store_owner s = uid →
    outcome req (DeleteStore id) db (cascade_delete_store id db)
      (inr (SuccessPayload true))
| outcome_create_product input db uid s :
    req_user req = LoggedIn uid →
    stores db !! cpi_store_id input = Some s → store_owner s = uid →
    0 ≤ cpi_price input → 0 ≤ cpi_stock input →
    products db !! product_seq db = None →
    outcome req (CreateProduct input) db
      (bump_product_seq
         (with_products (insert (product_seq db) (product_of_input input)) db))
      (inr (ProductPayload {| obj_pk := product_seq db;
                              obj_row := product_of_input input |}))
| outcome_update_product id input db uid row s row' :
    req_user req = LoggedIn uid →
    products db !! id = Some row →
    stores db !! product_store row = Some s → store_owner s = uid →
    0 ≤ default 0 (upi_price input) → 0 ≤ default 0 (upi_stock input) →
    row' = updated_product input row →
    outcome req (UpdateProduct id input) db
      (with_products (insert id row') db)
      (inr (ProductPayload {| obj_pk := id; obj_row := row' |}))
| outcome_delete_product id db uid row s :
    req_user req = LoggedIn uid →
    products db !! id = Some row →
    stores db !! product_store row = Some s → store_owner s = uid →
    outcome req (DeleteProduct id) db (cascade_delete_product id db)
      (inr (SuccessPayload true))
| outcome_create_review input db uid row :
    req_user req = LoggedIn uid →
    products db !! cri_product_id input = Some row →
    1 ≤ cri_rating input ≤ 5 →
    ¬ already_reviewed db (cri_product_id input) uid →
    reviews db !! review_seq db = None →
    outcome req (CreateReview input) db
      (bump_review_seq
         (with_reviews (insert (review_seq db)
                          (review_of_input input uid (req_now req))) db))
      (inr (ReviewPayload (review_seq db)
              (review_of_input input uid (req_now req))))
| outcome_update_review id rating comment db uid r r' :
    req_user req = LoggedIn uid →
    reviews db !! id = Some r → review_user r = uid →
    1 ≤ default 1 rating ≤ 5 →
    r' = updated_review rating comment r →
    outcome req (UpdateReview id rating comment) db
      (with_reviews (insert id r') db)
      (inr (ReviewPayload id r'))
| outcome_delete_review id db uid r :
    req_user req = LoggedIn uid →
    reviews db !! id = Some r → review_user r = uid →
    outcome req (DeleteReview id) db (with_reviews (delete id) db)
      (inr (SuccessPayload true))
| outcome_create_order items db db' r :
    create_order req items db = (db', r) →
    outcome req (CreateOrder items) db db'
      (match r with inl e => inl e | inr o => inr (OrderPayload o) end).

(** The mutations that act on a row someone owns, and the owner of that
    row: the owner of the store, of the store of the product, or the author
    of the review. *)
Definition guarded (mutation : Mutation) : bool :=
  match mutation with
  | CreateStore _ | CreateReview _ | CreateOrder _ => false
  | _ => true
  end.

Definition owner_of (db : DB) (mutation : Mutation) : option Z :=
  match mutation with
  | UpdateStore id _ | DeleteStore id => store_owner <$> stores db !! id
  | CreateProduct input => store_owner <$> stores db !! cpi_store_id input
  | UpdateProduct id _ | DeleteProduct id =>
      row ← products db !! id; store_owner <$> stores db !! product_store row
  | UpdateReview id _ _ | DeleteReview id => review_user <$> reviews db !! id
  | CreateStore _ | CreateReview _ | CreateOrder _ => None
  end.

(** ** Invariants of the catalogue and of the sales *)

Definition price_nonneg (db : DB) : Prop :=
  map_Forall (λ (_ : Z) (row : Product), 0 ≤ product_price row) (products db).

Definition ratings_in_range (db : DB) : Prop :=
  map_Forall (λ (_ : Z) (r : Review), 1 ≤ review_rating r ≤ 5) (reviews db).

(** At most one review for a product and a user. *)
Definition one_review_each (db : DB) : Prop :=
  ∀ i j ri rj,
    reviews db !! i = Some ri → reviews db !! j = Some rj →
    review_product ri = review_product rj → review_user ri = review_user rj →
    i = j.

(** The foreign keys into the store and product tables point to rows that
    are there: the store of every product, the product of every review and
    the product of every order item. *)
Definition references_kept (db : DB) : Prop :=
  map_Forall (λ (_ : Z) (row : Product), is_Some (stores db !! product_store row))
    (products db)
  ∧ map_Forall (λ (_ : Z) (r : Review), is_Some (products db !! review_product r))
      (reviews db)
  ∧ Forall (λ it, is_Some (products db !! oi_product it)) (order_items db).

(** Prices are not negative, items sell a positive quantity at a price that
    is not negative, and order totals are not negative. *)
Definition amounts_valid (db : DB) : Prop :=
  price_nonneg db
  ∧ Forall (λ it, 0 < oi_quantity it ∧ 0 ≤ oi_price it) (order_items db)
  ∧ Forall (λ o, 0 ≤ order_total o) (orders db).

(** Two rows of the product table that differ at most in stock. *)
Definition same_but_stock (row row' : Product) : Prop :=
  product_name row' = product_name row
  ∧ product_store row' = product_store row
  ∧ product_price row' = product_price row
  ∧ product_description row' = product_description row.

(** What a filter of [resolve_products] asks of a row; an argument that is
    absent, zero or empty asks nothing. *)
Definition passes_filters (icontains : string → string → bool)
    (search : option string) (store_id min_price max_price : option Z)
    (row : Product) : Prop :=
  (∀ s, search = Some s → s ≠ EmptyString →
     icontains (product_name row) s || icontains (product_description row) s = true)
  ∧ (∀ n, store_id = Some n → n ≠ 0 → product_store row = n)
  ∧ (∀ n, min_price = Some n → n ≠ 0 → n ≤ product_price row)
  ∧ (∀ n, max_price = Some n → n ≠ 0 → product_price row ≤ n).

(** ** More sample data *)

Definition restock (stock : Z) : UpdateProductInput :=
  {| upi_name := None; upi_price := None; upi_stock := Some stock;
     upi_description := None |}.

(** An update that renames and restocks the product and asks for a
    negative price. *)
Definition no_price : UpdateProductInput :=
  {| upi_name := Some "quill"%string; upi_price := Some (-1); upi_stock := Some 9;
     upi_description := None |}.

(** A review of the only product. *)
Definition praise (rating : Z) : CreateReviewInput :=
  {| cri_product_id := 1; cri_rating := rating; cri_comment := "writes well" |}.


(** One order of one unit of the only product. *)
Definition db_with_order : DB :=
  db_after (create_order (caller 8) [line 1 1]) (one_product_db 250 3).

(** * Properties *)

Lemma sum_Z_cons x l : sum_Z (x :: l) = x + sum_Z l.
Proof. reflexivity. Qed.

Lemma sum_Z_app l1 l2 : sum_Z (l1 ++ l2) = sum_Z l1 + sum_Z l2.
Proof.
  induction l1 as [|x l1 IH]; [done|].
  cbn [app]. rewrite !sum_Z_cons, IH. lia.
Qed.

(** ** The first loop reads and never writes *)

Lemma validate_item_cases item total data db :
  (∃ row, products db !! product_id item = Some row
          ∧ 0 < quantity item ≤ product_stock row
          ∧ validate_item item total data db =
              (db, inr (total + product_price row * quantity item,
                        data ++ [item_data_for item row])))
  ∨ (∃ e, validate_item item total data db = (db, inl e) ∧ line_error e
          ∧ ¬ line_ok db item
          ∧ (is_Some (products db !! product_id item) → quantity item ≤ 0 →
             e = QuantityNotPositive)).
Proof.
  unfold validate_item, get_product, line_ok. unfold_M.
  destruct (products db !! product_id item) as [row|] eqn:Hrow.
  - destruct (Z.leb_spec (quantity item) 0) as [Hq|Hq].
    + right. eexists. split; [reflexivity|].
      split; [constructor|]. split; [|done].
      intros (row' & Hrow' & ?). lia.
    + cbn [obj_row]. destruct (Z.ltb_spec (product_stock row) (quantity item)) as [Hs|Hs].
      * right. eexists. split; [reflexivity|].
        split; [constructor|]. split; [|lia].
        intros (row' & Hrow' & ?). simplify_eq. lia.
      * left. exists row. split; [done|]. split; [lia|]. reflexivity.
  - right. eexists. split; [reflexivity|].
    split; [constructor|]. split.
    + intros (row' & Hrow' & ?). done.
    + intros [? ?]. done.
Qed.

Lemma validate_items_inr items total data db db' total' data' :
  validate_items items total data db = (db', inr (total', data')) →
  db' = db ∧ ∃ news, Forall2 (checks db) items news
                     ∧ total' = total + sum_Z (data_price <$> news)
                     ∧ data' = data ++ news.
Proof.
  revert total data. induction items as [|item rest IH]; intros total data.
  - cbn. unfold_M. intros [= <- <- <-]. split; [done|]. exists [].
    split; [constructor|]. cbn. split; [lia|]. by rewrite app_nil_r.
  - cbn [validate_items]. unfold_M.
    destruct (validate_item_cases item total data db)
      as [(row & Hrow & Hq & ->)|(e & -> & _)]; [|done].
    intros H. apply IH in H as (-> & news & Hnews & -> & ->).
    split; [done|]. exists (item_data_for item row :: news).
    split; [constructor; [by exists row|done]|].
    rewrite fmap_cons, sum_Z_cons. cbn [item_data_for data_price].
    split; [lia|]. by rewrite <- app_assoc.
Qed.

Lemma validate_items_ok items total data db :
  Forall (line_ok db) items →
  ∃ news, Forall2 (checks db) items news
          ∧ validate_items items total data db =
              (db, inr (total + sum_Z (data_price <$> news), data ++ news)).
Proof.
  intros Hok. revert total data.
  induction Hok as [|item rest Hitem _ IH]; intros total data.
  - exists []. split; [constructor|]. cbn. unfold_M.
    by rewrite Z.add_0_r, app_nil_r.
  - cbn [validate_items]. unfold_M.
    destruct (validate_item_cases item total data db)
      as [(row & Hrow & Hq & ->)|(e & _ & _ & Hno & _)]; [|done].
    destruct (IH (total + product_price row * quantity item)
                 (data ++ [item_data_for item row])) as (news & Hnews & ->).
    exists (item_data_for item row :: news).
    split; [constructor; [by exists row|done]|].
    rewrite fmap_cons, sum_Z_cons. cbn [item_data_for data_price app].
    rewrite <- app_assoc. do 3 f_equal. lia.
Qed.

Lemma validate_items_inl items total data db db' e :
  validate_items items total data db = (db', inl e) →
  db' = db ∧ line_error e.
Proof.
  revert total data. induction items as [|item rest IH]; intros total data.
  - cbn. unfold_M. done.
  - cbn [validate_items]. unfold_M.
    destruct (validate_item_cases item total data db)
      as [(row & _ & _ & ->)|(e' & -> & He' & _)].
    + apply IH.
    + intros [= <- <-]. done.
Qed.



(** ** The second loop appends item rows and rewrites the products sold *)

Lemma persist_items_shape o data db db' r :
  persist_items o data db = (db', r) →
  ∃ done rest news,
    data = done ++ rest
    ∧ order_items db' = order_items db ++ news
    ∧ Forall2 (sold o) done news
    ∧ products db' = foldl save_row (products db) done
    ∧ same_but_sales db db'
    ∧ ((r = inr tt ∧ rest = []) ∨ (r = inl IntegrityError ∧ rest ≠ [])).
Proof.
  revert db. induction data as [|d data IH]; intros db.
  - cbn. unfold_M. intros [= <- <-]. exists [], [], [].
    split_and!; rewrite ?app_nil_r; try done; by left.
  - cbn [persist_items]. unfold_M. unfold objects_create_order_item, save_product.
    unfold_M.
    destruct (order_item_id_taken (order_item_seq db) (order_items db)).
    + intros [= <- <-]. exists [], (d :: data), [].
      split_and!; rewrite ?app_nil_r; try done; by right.
    + intros H. apply IH in H as (done & rest & news & -> & Hits & Hsold & Hps & Hsame & Hr).
      cbn in Hits, Hps.
      eexists (d :: done), rest, (_ :: news).
      split; [done|]. split; [by rewrite Hits, <- app_assoc|].
      split; [constructor; [done|exact Hsold]|].
      split; [exact Hps|]. split; [exact Hsame|]. exact Hr.
Qed.

Lemma order_item_id_free id its :
  Forall (λ it, oi_id it < id) its → order_item_id_taken id its = false.
Proof.
  unfold order_item_id_taken. induction 1 as [|it its Hit _ IH]; [done|].
  cbn. rewrite IH. destruct (Z.eqb_spec (oi_id it) id); [lia|done].
Qed.

Lemma order_id_free id os :
  Forall (λ o, order_id o < id) os → order_id_taken id os = false.
Proof.
  unfold order_id_taken. induction 1 as [|o os Ho _ IH]; [done|].
  cbn. rewrite IH. destruct (Z.eqb_spec (order_id o) id); [lia|done].
Qed.

Lemma order_id_taken_false id os o :
  order_id_taken id os = false → o ∈ os → order_id o ≠ id.
Proof.
  unfold order_id_taken. intros Hfree Ho.
  induction Ho as [o os|o o' os _ IH]; cbn in Hfree;
    apply orb_false_iff in Hfree as [Hhd Htl].
  - by apply Z.eqb_neq.
  - by apply IH.
Qed.

Lemma persist_items_ok o data db :
  item_seq_ahead db →
  ∃ db', persist_items o data db = (db', inr tt) ∧ item_seq_ahead db'.
Proof.
  revert db. induction data as [|d data IH]; intros db Hahead.
  - exists db. done.
  - cbn [persist_items]. unfold_M. unfold objects_create_order_item, save_product.
    unfold_M. rewrite order_item_id_free by exact Hahead.
    apply IH. unfold item_seq_ahead in *. cbn.
    apply Forall_app. split.
    + eapply Forall_impl; [exact Hahead|]. cbn. intros. lia.
    + repeat constructor. cbn. lia.
Qed.

(** ** The course of one order placement *)

(** [create_order] either stops before its first write, with the database
    untouched, or inserts the order row and enters the second loop. *)
Lemma create_order_spec req items db db' r :
  create_order req items db = (db', r) →
  (db' = db
   ∧ ∃ e, r = inl e
          ∧ ((e = AuthenticationRequired ∧ req_user req = AnonymousUser)
             ∨ (e = OrderEmpty ∧ items = [])
             ∨ (line_error e ∧ items ≠ [])
             ∨ e = IntegrityError))
  ∨ (∃ uid news o,
       req_user req = LoggedIn uid ∧ items ≠ []
       ∧ Forall2 (checks db) items news
       ∧ o = new_order db uid (sum_Z (data_price <$> news)) (req_now req)
       ∧ order_id_taken (order_seq db) (orders db) = false
       ∧ ∃ rp, persist_items o news (with_new_order o db) = (db', rp)
               ∧ ((rp = inr tt ∧ r = inr o)
                  ∨ (rp = inl IntegrityError ∧ r = inl IntegrityError))).
Proof.
  unfold create_order, require_authenticated. unfold_M.
  destruct (req_user req) as [|uid] eqn:Huser.
  { intros [= <- <-]. left. split; [done|]. eexists. split; [done|]. by left. }
  destruct items as [|item rest].
  { intros [= <- <-]. left. split; [done|]. eexists. split; [done|].
    right. by left. }
  destruct (validate_items (item :: rest) 0 [] db) as [db1 [e|[total data]]] eqn:Hval.
  { apply validate_items_inl in Hval as [-> He]. intros [= <- <-].
    left. split; [done|]. exists e. split; [done|]. right. right. by left. }
  apply validate_items_inr in Hval as (-> & news & Hnews & -> & ->).
  cbn [app]. rewrite Z.add_0_l.
  unfold objects_create_order.
  destruct (order_id_taken (order_seq db) (orders db)) eqn:Htaken.
  { intros [= <- <-]. left. split; [done|]. eexists. split; [done|].
    by do 3 right. }
  fold (new_order db uid (sum_Z (data_price <$> news)) (req_now req)).
  set (o := new_order db uid (sum_Z (data_price <$> news)) (req_now req)).
  fold (with_new_order o db).
  destruct (persist_items o news (with_new_order o db)) as [db2 rp] eqn:Hper.
  intros H. right. exists uid, news, o. split_and!; try done.
  exists rp.
  pose proof (persist_items_shape _ _ _ _ _ Hper)
    as (_ & _ & _ & _ & _ & _ & _ & _ & [[-> _]|[-> _]]);
    injection H as <- <-; split; auto.
Qed.

(** While the first loop fails, [create_order] answers its error and writes
    nothing. *)
Lemma create_order_validation_error uid now items db e :
  items ≠ [] →
  validate_items items 0 [] db = (db, inl e) →
  create_order {| req_user := LoggedIn uid; req_now := now |} items db = (db, inl e).
Proof.
  intros Hne Hval. unfold create_order, require_authenticated. unfold_M. cbn.
  destruct items as [|item rest]; [done|]. by rewrite Hval.
Qed.

(** ** A committed order *)

Lemma checks_sold db o items news newits :
  Forall2 (checks db) items news →
  Forall2 (sold o) news newits →
  Forall2 (line_sold db o) items newits.
Proof.
  intros Hchecks. revert newits.
  induction Hchecks as [|item d items news (row & Hrow & Hq & ->) _ IH];
    intros newits Hsold; inversion Hsold as [|? it ? newits' Hit Hrest]; subst.
  - constructor.
  - constructor; [|by apply IH].
    destruct Hit as (? & ? & ? & ?). exists row. cbn in *. done.
Qed.

Lemma checks_price_sum db o items news newits :
  Forall2 (checks db) items news →
  Forall2 (sold o) news newits →
  sum_Z (data_price <$> news) = sum_Z (oi_price <$> newits).
Proof.
  intros _ Hsold. induction Hsold as [|d it news newits (_ & _ & _ & Hp) _ IH]; [done|].
  rewrite !fmap_cons, !sum_Z_cons, IH, Hp. done.
Qed.

Lemma saved_rows_lookup db items news p :
  Forall2 (checks db) items news →
  ∀ m, foldl save_row m news !! p =
       match last_line p items with
       | Some item =>
           (λ row, set_stock (product_stock row - quantity item) row)
             <$> products db !! p
       | None => m !! p
       end.
Proof.
  unfold last_line, lines_of.
  induction 1 as [|item d items news (row & Hrow & Hq & ->) _ IH]; intros m; [done|].
  cbn [foldl]. rewrite IH, filter_cons.
  destruct (decide (product_id item = p)) as [<-|Hne].
  - rewrite last_cons.
    destruct (last (filter _ items)); [done|].
    unfold save_row, decremented, item_data_for. cbn.
    by rewrite lookup_insert_eq, Hrow.
  - destruct (last (filter _ items)); [done|].
    unfold save_row, item_data_for. cbn. by rewrite lookup_insert_ne.
Qed.

Lemma line_sold_quantities db o items newits p :
  Forall2 (line_sold db o) items newits →
  sum_Z (oi_quantity <$> filter (λ it, oi_product it = p) newits)
  = sum_Z (quantity <$> lines_of p items).
Proof.
  unfold lines_of.
  induction 1 as [|item it items newits (row & _ & _ & _ & Hp & Hq & _) _ IH]; [done|].
  rewrite !filter_cons, Hp.
  destruct (decide (product_id item = p)); [|done].
  by rewrite !fmap_cons, !sum_Z_cons, IH, Hq.
Qed.

Lemma create_order_committed req items db db' o :
  create_order req items db = (db', inr o) →
  ∃ uid newits,
    req_user req = LoggedIn uid ∧ items ≠ []
    ∧ o = new_order db uid (sum_Z (oi_price <$> newits)) (req_now req)
    ∧ order_id_taken (order_seq db) (orders db) = false
    ∧ Forall2 (line_sold db o) items newits
    ∧ orders db' = orders db ++ [o]
    ∧ order_items db' = order_items db ++ newits
    ∧ (∀ p, products db' !! p =
            match last_line p items with
            | Some item =>
                (λ row, set_stock (product_stock row - quantity item) row)
                  <$> products db !! p
            | None => products db !! p
            end).
Proof.
  intros Hrun. apply create_order_spec in Hrun
    as [(_ & e & [=] & _)
       |(uid & news & o' & Huser & Hne & Hchecks & Ho & Hfree & rp & Hper & Hr)].
  destruct Hr as [[-> [= <-]]|[_ [=]]].
  apply persist_items_shape in Hper
    as (done & rest & newits & Hdata & Hits & Hsold & Hps & Hsame & Hr).
  destruct Hr as [[_ ->]|[[=] _]]. rewrite app_nil_r in Hdata. subst done.
  destruct Hsame as (_ & Hos & _).
  exists uid, newits. split_and!; try done.
  - by rewrite <- (checks_price_sum db o items news newits).
  - by eapply checks_sold.
  - intros p. rewrite Hps. cbn. by apply saved_rows_lookup.
Qed.

Lemma create_order_succeeds uid now items db :
  order_seq_ahead db → item_seq_ahead db →
  items ≠ [] → Forall (line_ok db) items →
  ∃ db' o,
    create_order {| req_user := LoggedIn uid; req_now := now |} items db
      = (db', inr o).
Proof.
  intros Hos Hits Hne Hok.
  destruct (validate_items_ok items 0 [] db Hok) as (news & _ & Hval).
  unfold create_order, require_authenticated. unfold_M. cbn [req_user req_now].
  destruct items as [|item rest]; [done|]. rewrite Hval.
  unfold objects_create_order. rewrite (order_id_free _ _ Hos).
  match goal with
  | |- context [persist_items ?o ?data ?db1] =>
      destruct (persist_items_ok o data db1) as (db' & -> & _); [exact Hits|]
  end.
  eauto.
Qed.

Lemma filter_all {A} (P : A → Prop) `{∀ x, Decision (P x)} (l : list A) :
  Forall P l → filter P l = l.
Proof.
  induction 1 as [|x l Hx _ IH]; [done|]. by rewrite filter_cons_True, IH.
Qed.

Lemma filter_none {A} (P : A → Prop) `{∀ x, Decision (P x)} (l : list A) :
  Forall (λ x, ¬ P x) l → filter P l = [].
Proof.
  induction 1 as [|x l Hx _ IH]; [done|]. by rewrite filter_cons_False, IH.
Qed.

(** ** What each mutation does to the tables of products, orders and items *)

(** Whatever its answer, [create_order] either writes nothing, or inserts
    the order row and then, for a first stretch [done] of the lines, the
    item row and the product row of each. *)
Lemma create_order_effect req items db db' r :
  create_order req items db = (db', r) →
  db' = db
  ∨ ∃ o lines rest newits news,
      items = lines ++ rest
      ∧ Forall2 (checks db) lines news
      ∧ Forall2 (line_sold db o) lines newits
      ∧ order_id o = order_seq db
      ∧ order_id_taken (order_seq db) (orders db) = false
      ∧ orders db' = orders db ++ [o]
      ∧ order_items db' = order_items db ++ newits
      ∧ products db' = foldl save_row (products db) news
      ∧ stores db' = stores db ∧ reviews db' = reviews db.
Proof.
  intros Hrun. apply create_order_spec in Hrun
    as [[-> _]|(uid & news & o & _ & _ & Hchecks & Ho & Hfree & rp & Hper & _)];
    [by left|right].
  apply persist_items_shape in Hper
    as (done & rest & newits & -> & Hits & Hsold & Hps & Hsame & _).
  destruct Hsame as (Hst & Hos & Hrev & _).
  apply Forall2_app_inv_r in Hchecks as (lines & rest' & Hdone & _ & ->).
  exists o, lines, rest', newits, done. split_and!; try done.
  - by eapply checks_sold.
  - by rewrite Ho.
Qed.

Lemma execute_effect req mutation db :
  effect req mutation db (db_after (execute req mutation) db).
Proof.
  destruct mutation; cbn [execute].
  - unfold create_store. run_mutation; by constructor.
  - unfold update_store. run_mutation; by constructor.
  - unfold delete_store. run_mutation; by constructor.
  - unfold create_product. run_mutation; try by constructor.
    apply effect_create_product; [done|done|lia].
  - unfold update_product. run_mutation; try by constructor.
    all: eapply effect_update_product; [done| |];
      match goal with H : upi_stock _ = _ |- _ => rewrite H end; cbn; [done|lia].
  - unfold delete_product. run_mutation; by constructor.
  - unfold create_review. run_mutation; by constructor.
  - unfold update_review. run_mutation; by constructor.
  - unfold delete_review. run_mutation; by constructor.
  - unfold db_after. unfold_M.
    destruct (create_order req items db) as [db' [e|o]] eqn:Hrun; cbn;
      by eapply effect_create_order.
Qed.

(** ** Stock is never negative *)

Lemma saved_rows_nonneg db lines news (m : gmap Z Product) :
  Forall2 (checks db) lines news →
  map_Forall (λ (_ : Z) (row : Product), 0 ≤ product_stock row) m →
  map_Forall (λ (_ : Z) (row : Product), 0 ≤ product_stock row)
    (foldl save_row m news).
Proof.
  intros Hchecks. revert m.
  induction Hchecks as [|item d lines news (row & _ & Hq & ->) _ IH]; intros m Hm;
    [done|].
  cbn [foldl]. apply IH. unfold save_row.
  apply map_Forall_insert_2; [|done]. cbn. lia.
Qed.

Lemma effect_stock_nonneg req mutation db db' :
  effect req mutation db db' → stock_nonneg db → stock_nonneg db'.
Proof.
  unfold stock_nonneg.
  destruct 1 as [mutation db db' Hps _ _ _ _|input db row Hfree Hstock Hpos
                |id input db row row' Hrow Hstock Hpos|id db _|id db
                |items db db' r Hrun]; intros Hinv.
  - by rewrite Hps.
  - cbn. apply map_Forall_insert_2; [lia|done].
  - cbn. apply map_Forall_insert_2; [|done].
    rewrite Hstock. destruct (upi_stock input); cbn in *; [done|].
    by apply (Hinv id row).
  - cbn. by apply map_Forall_delete.
  - cbn. intros p row Hp. apply map_lookup_filter_Some in Hp as [Hp _].
    by apply (Hinv p row).
  - apply create_order_effect in Hrun
      as [->|(o & lines & rest & newits & news & _ & Hchecks & _ & _ & _ & _ & _
              & Hps & _)]; [done|].
    rewrite Hps. by eapply saved_rows_nonneg.
Qed.

Lemma execute_stock_nonneg req mutation db :
  stock_nonneg db → stock_nonneg (db_after (execute req mutation) db).
Proof. apply effect_stock_nonneg with req mutation, execute_effect. Qed.

Lemma execute_all_stock_nonneg calls db :
  stock_nonneg db → stock_nonneg (execute_all calls db).
Proof.
  revert db. induction calls as [|[req mutation] calls IH]; intros db Hinv; [done|].
  cbn [execute_all]. by apply IH, execute_stock_nonneg.
Qed.

Lemma create_product_rejects_negative_stock req input db :
  cpi_stock input < 0 →
  ∃ e, execute req (CreateProduct input) db = (db, inl e).
Proof.
  intros Hneg. cbn [execute]. unfold create_product.
  run_mutation; try (eexists; reflexivity); lia.
Qed.

Lemma update_product_rejects_negative_stock req id input s db :
  upi_stock input = Some s → s < 0 →
  ∃ e, execute req (UpdateProduct id input) db = (db, inl e).
Proof.
  intros Hs Hneg. cbn [execute]. unfold update_product.
  run_mutation; try (eexists; reflexivity); lia.
Qed.

Lemma one_product_db_stock_nonneg price stock :
  0 ≤ stock → stock_nonneg (one_product_db price stock).
Proof.
  intros Hs. unfold stock_nonneg. cbn.
  apply map_Forall_insert_2; [done|]. apply map_Forall_empty.
Qed.

(** ** Who writes the stock of a product *)

Lemma last_line_elem p items item :
  last_line p items = Some item → item ∈ items ∧ product_id item = p.
Proof.
  unfold last_line, lines_of. intros Hlast.
  apply last_Some_elem_of, list_elem_of_filter in Hlast as [? ?]. done.
Qed.

Lemma effect_stock_writers req mutation db db' p s s' :
  effect req mutation db db' →
  stock_of db p = Some s → stock_of db' p = Some s' → s' ≠ s →
  (∃ items item, mutation = CreateOrder items ∧ item ∈ items
                 ∧ product_id item = p ∧ s' = s - quantity item)
  ∨ (∃ input, mutation = UpdateProduct p input ∧ upi_stock input = Some s').
Proof.
  unfold stock_of.
  destruct 1 as [mutation db db' Hps _ _ _ _|input db row Hfree Hstock Hpos
                |id input db row row' Hrow Hstock Hpos|id db _|id db
                |items db db' r Hrun]; intros Hs Hs' Hne.
  - rewrite Hps in Hs'. congruence.
  - cbn in Hs'. destruct (decide (product_seq db = p)) as [<-|Hp].
    + by rewrite Hfree in Hs.
    + rewrite lookup_insert_ne in Hs' by done. congruence.
  - cbn in Hs'. destruct (decide (id = p)) as [<-|Hp].
    + rewrite lookup_insert_eq in Hs'. rewrite Hrow in Hs. cbn in Hs, Hs'.
      simplify_eq. right. exists input. split; [done|].
      destruct (upi_stock input); cbn in *; [by rewrite Hstock|congruence].
    + rewrite lookup_insert_ne in Hs' by done. congruence.
  - cbn in Hs'. destruct (decide (id = p)) as [<-|Hp].
    + by rewrite lookup_delete_eq in Hs'.
    + rewrite lookup_delete_ne in Hs' by done. congruence.
  - cbn in Hs'.
    destruct (filter _ (products db) !! p) as [row'|] eqn:Hrow'; [|done].
    apply map_lookup_filter_Some in Hrow' as [Hrow' _].
    rewrite Hrow' in Hs. cbn in Hs, Hs'. congruence.
  - apply create_order_effect in Hrun
      as [->|(o & lines & rest & newits & news & -> & Hchecks & _ & _ & _ & _ & _
              & Hps & _)]; [congruence|].
    rewrite Hps, (saved_rows_lookup db lines news p Hchecks) in Hs'.
    destruct (last_line p lines) as [item|] eqn:Hlast; [|congruence].
    apply last_line_elem in Hlast as [Hin Hp].
    left. exists (lines ++ rest), item. split_and!; try done.
    + apply elem_of_app. by left.
    + destruct (products db !! p); cbn in *; congruence.
Qed.

(** ** Orders and items after they are committed *)





(** ** One request at a time, and requests side by side *)







Lemma step_thread_ok t db : thread_ok t → thread_ok (step t db).2.
Proof.
  destruct t as [req items|user now items total data|user now total data
                |o data|o d rest|r]; cbn [step thread_ok].
  - intros _. destruct (req_user req), items; cbn; auto.
  - intros Hdata. destruct items as [|item rest]; [done|].
    pose proof (validate_item_cases item total data db)
      as [(row & _ & Hq & ->)|(e & -> & _)]; cbn; [|done].
    apply Forall_app. split; [done|]. repeat constructor.
    unfold item_data_ok. cbn. lia.
  - intros Hdata. unfold objects_create_order.
    by destruct (order_id_taken _ _).
  - intros Hdata. destruct data as [|d rest]; [done|].
    unfold objects_create_order_item.
    destruct (order_item_id_taken _ _); cbn; [done|].
    by apply Forall_cons in Hdata.
  - by intros [_ Hrest].
  - done.
Qed.

Lemma step_stock_nonneg t db :
  thread_ok t → stock_nonneg db → stock_nonneg (step t db).1.
Proof.
  unfold stock_nonneg.
  destruct t as [req items|user now items total data|user now total data
                |o data|o d rest|r]; cbn [step thread_ok].
  - intros _ Hinv. by destruct (req_user req), items.
  - intros _ Hinv. destruct items as [|item rest]; [done|].
    by pose proof (validate_item_cases item total data db)
      as [(row & _ & Hq & ->)|(e & -> & _)].
  - intros _ Hinv. unfold objects_create_order.
    by destruct (order_id_taken _ _).
  - intros _ Hinv. destruct data as [|d rest]; [done|].
    unfold objects_create_order_item.
    by destruct (order_item_id_taken _ _).
  - intros [Hd _] Hinv. unfold save_product. unfold_M. cbn.
    apply map_Forall_insert_2; [|done]. unfold item_data_ok in Hd. cbn. lia.
  - done.
Qed.

Lemma pool_step_invariant i db pool :
  stock_nonneg db → Forall thread_ok pool →
  stock_nonneg (pool_step i (db, pool)).1
  ∧ Forall thread_ok (pool_step i (db, pool)).2.
Proof.
  intros Hinv Hpool. unfold pool_step. cbn [fst snd].
  destruct (pool !! i) as [t|] eqn:Ht; [|done].
  assert (thread_ok t) as Hok by (eapply Forall_lookup_1; eauto).
  pose proof (step_stock_nonneg t db Hok Hinv).
  pose proof (step_thread_ok t db Hok).
  destruct (step t db) as [db' t']. cbn [fst snd] in *.
  split; [done|]. by apply Forall_insert.
Qed.

(** However the statements of any number of order placements interleave,
    no stock becomes negative: every [save] writes the stock its own
    instance was read with, minus a quantity that the check found no
    greater. *)
Theorem run_schedule_stock_nonneg schedule db pool :
  stock_nonneg db → Forall thread_ok pool →
  stock_nonneg (run_schedule schedule (db, pool)).1.
Proof.
  revert db pool. induction schedule as [|i rest IH]; intros db pool Hinv Hpool;
    [done|].
  cbn [run_schedule].
  destruct (pool_step_invariant i db pool Hinv Hpool) as [Hinv' Hpool'].
  destruct (pool_step i (db, pool)) as [db' pool']. by apply IH.
Qed.

(** ** Units sold against units in stock *)

Lemma lines_of_absent p lines :
  p ∉ product_id <$> lines → lines_of p lines = [].
Proof.
  intros Hp. unfold lines_of. apply filter_none, Forall_forall.
  intros item Hin <-. apply Hp, list_elem_of_fmap. eauto.
Qed.

Lemma lines_of_nodup p lines :
  NoDup (product_id <$> lines) →
  lines_of p lines = [] ∨ ∃ item, lines_of p lines = [item].
Proof.
  induction lines as [|item lines IH]; [by left|].
  rewrite fmap_cons, NoDup_cons. intros [Hhd Htl].
  unfold lines_of. rewrite filter_cons.
  destruct (decide (product_id item = p)) as [<-|Hne].
  - right. exists item. f_equal. by apply lines_of_absent.
  - by apply IH.
Qed.

(** An order whose cart names every product at most once lowers the stock
    of a product by what its items sell of it. *)
Lemma create_order_conserves_units req items db db' r p s :
  NoDup (product_id <$> items) →
  create_order req items db = (db', r) →
  stock_of db p = Some s →
  ∃ s', stock_of db' p = Some s' ∧ s' + reserved db' p = s + reserved db p.
Proof.
  intros Hnodup Hrun Hs.
  apply create_order_effect in Hrun
    as [->|(o & lines & rest & newits & news & -> & Hchecks & Hsold & _ & _ & _
            & Hits & Hps & _)]; [by exists s|].
  rewrite fmap_app in Hnodup. apply NoDup_app in Hnodup as (Hnodup & _ & _).
  unfold stock_of, reserved, items_of_product in *.
  rewrite Hps, (saved_rows_lookup db lines news p Hchecks).
  rewrite Hits, filter_app, fmap_app, sum_Z_app.
  rewrite (line_sold_quantities db o lines newits p Hsold).
  unfold last_line.
  destruct (lines_of_nodup p lines Hnodup) as [->|[item ->]]; cbn [last].
  - exists s. split; [done|]. cbn. lia.
  - destruct (products db !! p) as [row|]; [|done]. cbn in Hs. simplify_eq.
    eexists. split; [done|]. cbn. lia.
Qed.

Lemma db_after_execute_create_order req items db :
  db_after (execute req (CreateOrder items)) db
  = db_after (create_order req items) db.
Proof.
  unfold db_after. cbn [execute]. unfold_M.
  by destruct (create_order req items db) as [db' [e|o]].
Qed.

(** ** The order tables stay well formed *)


Lemma Forall_filter_keep {A} (P Q : A → Prop) `{∀ x, Decision (Q x)} (l : list A) :
  Forall P l → Forall P (filter Q l).
Proof.
  rewrite !Forall_forall. intros HP x Hx.
  apply list_elem_of_filter in Hx as [_ Hx]. by apply HP.
Qed.





(** * The properties of the specification *)

(** ** Units sold against units in stock *)

(** C1 fails on a cart that names a product in two lines: both lines pass
    the check against the stock of three, both items are committed, and six
    units are sold of a stock of three. *)
Theorem duplicate_lines_oversell :
  let db := one_product_db 250 3 in
  let db' := db_after (create_order (caller 8) [line 1 3; line 1 3]) db in
  stock_of db 1 = Some 3 ∧ reserved db 1 = 0
  ∧ answer (create_order (caller 8) [line 1 3; line 1 3]) db
    = inr {| order_id := 1; order_user := 8; order_total := 1500;
             order_ordered_at := 100 |}
  ∧ reserved db' 1 = 6 ∧ stock_of db' 1 = Some 0.
Proof. split_and!; reflexivity. Qed.

(** X20.  Where C1 holds: order placements that run one after the other, with
    carts that name every product at most once, never sell more of a
    product than the stock it started with. *)
Theorem serial_orders_without_repeats_never_oversell calls db p s :
  Forall (λ c, NoDup (product_id <$> c.2)) calls →
  stock_nonneg db → stock_of db p = Some s →
  ∃ s', stock_of (execute_all (place_all calls) db) p = Some s'
        ∧ 0 ≤ s'
        ∧ s' + reserved (execute_all (place_all calls) db) p = s + reserved db p.
Proof.
  intros Hcalls. revert db s.
  induction Hcalls as [|[req items] calls Hnodup _ IH]; intros db s Hinv Hs.
  - exists s. split_and!; try done.
    unfold stock_of in Hs. destruct (products db !! p) as [row|] eqn:Hrow; [|done].
    cbn in Hs. simplify_eq. by apply (Hinv p row).
  - cbn [place_all fmap list_fmap execute_all fst snd].
    pose proof (execute_stock_nonneg req (CreateOrder items) db Hinv) as Hinv1.
    rewrite db_after_execute_create_order in *.
    destruct (create_order_conserves_units req items db
                (db_after (create_order req items) db)
                (answer (create_order req items) db) p s Hnodup)
      as (s1 & Hs1 & Hunits); [unfold db_after, answer; by destruct (create_order req items db)|done|].
    destruct (IH _ s1 Hinv1 Hs1) as (s' & Hs' & Hpos & Hunits').
    exists s'. split_and!; try done. unfold place_all in Hunits'. lia.
Qed.

Lemma serial_orders_without_repeats_never_oversell_witness :
  let db := one_product_db 250 3 in
  let calls := [(caller 7, [line 1 2]); (caller 8, [line 1 2]); (caller 8, [line 1 1])] in
  ∃ s', stock_of (execute_all (place_all calls) db) 1 = Some s'
        ∧ 0 ≤ s'
        ∧ s' + reserved (execute_all (place_all calls) db) 1 = 3 + reserved db 1.
Proof.
  intros db calls.
  apply (serial_orders_without_repeats_never_oversell calls db 1 3).
  - repeat constructor; cbn; set_solver.
  - apply one_product_db_stock_nonneg. lia.
  - reflexivity.
Defined.

(** ** Two requests for the last unit *)

(** C2 fails when the two requests interleave: each reads a stock of one
    before the other writes, both pass the check, both commit, and two
    units are sold of a stock of one. *)
Theorem last_unit_race_both_succeed :
  let db := one_product_db 250 1 in
  let pool := [Start (caller 7) [line 1 1]; Start (caller 8) [line 1 1]] in
  let cfg := run_schedule [0; 1; 0; 1; 0; 1; 0; 1; 0; 1; 0; 1; 0; 1]%nat (db, pool) in
  stock_of db 1 = Some 1
  ∧ cfg.2 = [Finished (inr {| order_id := 1; order_user := 7; order_total := 250;
                               order_ordered_at := 100 |});
             Finished (inr {| order_id := 2; order_user := 8; order_total := 250;
                               order_ordered_at := 100 |})]
  ∧ reserved cfg.1 1 = 2 ∧ stock_of cfg.1 1 = Some 0.
Proof. split_and!; reflexivity. Qed.

(** The same two requests one after the other: the first commits and the
    second is refused for lack of stock. *)
Example last_unit_one_after_the_other :
  let db := one_product_db 250 1 in
  let pool := [Start (caller 7) [line 1 1]; Start (caller 8) [line 1 1]] in
  let cfg := run_schedule [0; 0; 0; 0; 0; 0; 0; 1; 1; 1; 1; 1; 1; 1]%nat (db, pool) in
  cfg.2 = [Finished (inr {| order_id := 1; order_user := 7; order_total := 250;
                             order_ordered_at := 100 |});
           Finished (inl (NotEnoughStock "pen" 0))]
  ∧ reserved cfg.1 1 = 1 ∧ stock_of cfg.1 1 = Some 0.
Proof. split_and!; reflexivity. Qed.

(** X21.  Where C2 holds: of two requests for the last unit that run one after
    the other, the first commits and the second is refused for lack of
    stock, with nothing written. *)
Theorem last_unit_one_after_the_other_any uid1 now1 uid2 now2 db p row :
  order_seq_ahead db → item_seq_ahead db →
  products db !! p = Some row → product_stock row = 1 →
  ∃ db1 o,
    create_order {| req_user := LoggedIn uid1; req_now := now1 |} [line p 1] db
      = (db1, inr o)
    ∧ create_order {| req_user := LoggedIn uid2; req_now := now2 |} [line p 1] db1
      = (db1, inl (NotEnoughStock (product_name row) 0)).
Proof.
  intros Hos Hits Hrow Hstock.
  destruct (create_order_succeeds uid1 now1 [line p 1] db Hos Hits)
    as (db1 & o & Hrun); [done| |].
  { repeat constructor. exists row. cbn. split; [done|lia]. }
  exists db1, o. split; [done|].
  apply create_order_committed in Hrun as (_ & _ & _ & _ & _ & _ & _ & _ & _ & Hps).
  specialize (Hps p). unfold last_line, lines_of in Hps.
  rewrite filter_cons_True in Hps by done. cbn in Hps. rewrite Hrow in Hps.
  cbn in Hps.
  apply create_order_validation_error; [done|].
  cbn [validate_items]. unfold validate_item, get_product. unfold_M.
  cbn [line product_id quantity]. rewrite Hps. cbn. by rewrite Hstock.
Qed.

Lemma last_unit_one_after_the_other_any_witness :
  ∃ db1 o,
    create_order {| req_user := LoggedIn 7; req_now := 100 |} [line 1 1]
        (one_product_db 250 1)
      = (db1, inr o)
    ∧ create_order {| req_user := LoggedIn 8; req_now := 101 |} [line 1 1] db1
      = (db1, inl (NotEnoughStock (product_name (shelf "pen" 250 1)) 0)).
Proof.
  apply (last_unit_one_after_the_other_any 7 100 8 101 (one_product_db 250 1) 1
           (shelf "pen" 250 1)).
  - constructor.
  - constructor.
  - reflexivity.
  - reflexivity.
Defined.

(** ** The total of a committed order *)

(** C3.  When order placement commits, the order row is in the order
    table, its items are the lines of the cart in order, its total is the sum
    of the [price] fields of its items, and the [price] of each item is the
    unit price of the product at placement time times the quantity of the
    item; sums and products are those of the integers (hundredths), so
    nothing is rounded. *)
Theorem order_total_is_sum_of_item_prices req items db db' o :
  create_order req items db = (db', inr o) →
  items_reference_orders db →
  o ∈ orders db'
  ∧ order_total o = sum_Z (oi_price <$> items_of_order db' (order_id o))
  ∧ Forall2 (priced_from db) items (items_of_order db' (order_id o)).
Proof.
  intros Hrun Hfk.
  apply create_order_committed in Hrun
    as (uid & newits & _ & _ & Ho & Hfree & Hsold & Hos & Hits & _).
  assert (items_of_order db' (order_id o) = newits) as ->.
  { unfold items_of_order. rewrite Hits, filter_app.
    rewrite (filter_none _ (order_items db)), (filter_all _ newits); [done| |].
    - eapply Forall2_Forall_r; [exact Hsold|]. apply Forall_true.
      intros item it (row & _ & _ & Hoid & _). exact Hoid.
    - eapply Forall_impl; [exact Hfk|]. cbn.
      intros it (o' & Ho' & <-).
      rewrite Ho. cbn. by eapply order_id_taken_false. }
  split_and!.
  - rewrite Hos. apply elem_of_app. right. by apply list_elem_of_singleton.
  - by rewrite Ho.
  - eapply Forall2_impl; [exact Hsold|].
    intros item it (row & Hrow & _ & _ & Hp & Hq & Hprice).
    exists row. by rewrite Hq.
Qed.

Lemma order_total_is_sum_of_item_prices_witness :
  let db := one_product_db 250 3 in
  let cart := [line 1 2; line 1 1] in
  let o := {| order_id := 1; order_user := 7; order_total := 750;
              order_ordered_at := 100 |} in
  let db' := db_after (create_order (caller 7) cart) db in
  o ∈ orders db'
  ∧ order_total o = sum_Z (oi_price <$> items_of_order db' (order_id o))
  ∧ Forall2 (priced_from db) cart (items_of_order db' (order_id o)).
Proof.
  intros db cart o db'.
  apply (order_total_is_sum_of_item_prices (caller 7) cart db db' o).
  - reflexivity.
  - constructor.
Defined.

(** ** Aborted placements *)

(** C4.  When order placement aborts with one of the cart errors
    ([EmptyCart], [InvalidQuantity], [ProductNotFound], [InsufficientStock]),
    the database it leaves is the database it started from: no stock is
    changed and no order or item row is written. *)
Theorem create_order_abort_leaves_db req items db e :
  answer (create_order req items) db = inl e →
  cart_error e →
  db_after (create_order req items) db = db.
Proof.
  unfold answer, db_after.
  destruct (create_order req items db) as [db' r] eqn:Hrun. cbn.
  intros -> He.
  apply create_order_spec in Hrun
    as [[-> _]|(uid & news & o & _ & _ & _ & _ & _ & rp & _ & [[_ ?]|[_ ?]])];
    [done|done|].
  simplify_eq. inversion He.
Qed.

Lemma create_order_abort_leaves_db_witness :
  answer (create_order (caller 7) [line 1 2; line 1 5]) (one_product_db 250 3)
    = inl (NotEnoughStock "pen" 3)
  ∧ db_after (create_order (caller 7) [line 1 2; line 1 5]) (one_product_db 250 3)
    = one_product_db 250 3.
Proof.
  split; [reflexivity|].
  apply (create_order_abort_leaves_db _ _ _ (NotEnoughStock "pen" 3));
    [reflexivity|constructor].
Defined.

(** ** Lines of quantity at most zero *)




(** ** Who writes the stock of a product *)

(** C6, as the code has it.  The stock of a product that is there before
    and after a mutation changes only in two ways: [CreateOrder] with a
    line that names the product, to the former stock minus the quantity of
    such a line; and [UpdateProduct] of that product with a stock in its
    input, to that stock.  Every other mutation, and these two for every
    other product, leave the stock as it is. *)
Theorem stock_written_by_orders_and_updates req mutation db p s s' :
  stock_of db p = Some s →
  stock_of (db_after (execute req mutation) db) p = Some s' →
  s' ≠ s →
  (∃ items item, mutation = CreateOrder items ∧ item ∈ items
                 ∧ product_id item = p ∧ s' = s - quantity item)
  ∨ (∃ input, mutation = UpdateProduct p input ∧ upi_stock input = Some s').
Proof. apply effect_stock_writers with req, execute_effect. Qed.

Lemma stock_written_by_orders_and_updates_witness :
  (∃ items item, UpdateProduct 1 (restock 9) = CreateOrder items ∧ item ∈ items
                 ∧ product_id item = 1 ∧ 9 = 3 - quantity item)
  ∨ (∃ input, UpdateProduct 1 (restock 9) = UpdateProduct 1 input
              ∧ upi_stock input = Some 9).
Proof.
  apply (stock_written_by_orders_and_updates (caller 7)
           (UpdateProduct 1 (restock 9)) (one_product_db 250 3) 1 3 9).
  - reflexivity.
  - reflexivity.
  - lia.
Defined.

(** C6, as stated, fails: [UpdateProduct] with a stock in its input writes
    the stock of the product. *)
Lemma update_product_writes_stock :
  stock_of (one_product_db 250 3) 1 = Some 3
  ∧ answer (execute (caller 7) (UpdateProduct 1 (restock 9))) (one_product_db 250 3)
    = inr (ProductPayload {| obj_pk := 1; obj_row := shelf "pen" 250 9 |})
  ∧ stock_of (db_after (execute (caller 7) (UpdateProduct 1 (restock 9)))
                (one_product_db 250 3)) 1 = Some 9.
Proof. split_and!; reflexivity. Qed.

(** ** Stock is never negative *)

(** C7.  Non-negative stock is an invariant of the operation set: if every
    stock is at least zero, it is so after any history of mutations, order
    placements among them, and it is so however the statements of any
    number of order placements interleave.  Product creation with a
    negative stock, and product update to a negative stock, are refused and
    write nothing. *)
Theorem stock_never_negative calls requests schedule db :
  stock_nonneg db →
  stock_nonneg (execute_all calls db)
  ∧ stock_nonneg (run_schedule schedule (db, start_all requests)).1
  ∧ (∀ req input, cpi_stock input < 0 →
       ∃ e, execute req (CreateProduct input) db = (db, inl e))
  ∧ (∀ req id input s, upi_stock input = Some s → s < 0 →
       ∃ e, execute req (UpdateProduct id input) db = (db, inl e)).
Proof.
  intros Hinv. split_and!.
  - by apply execute_all_stock_nonneg.
  - apply run_schedule_stock_nonneg; [done|].
    unfold start_all. apply Forall_fmap, Forall_true. by intros [req items].
  - intros. by apply create_product_rejects_negative_stock.
  - intros. by eapply update_product_rejects_negative_stock.
Qed.

Lemma stock_never_negative_witness :
  let db := one_product_db 250 3 in
  let calls :=
    [(caller 7, UpdateProduct 1 (restock 2));
     (caller 8, CreateOrder [line 1 2; line 1 2]);
     (caller 8, CreateOrder [line 1 1])] in
  let requests := [(caller 7, [line 1 2]); (caller 8, [line 1 3])] in
  let schedule := [0; 1; 1; 0; 0; 1; 0; 1; 1; 0; 0; 1; 1; 0]%nat in
  stock_nonneg (execute_all calls db)
  ∧ stock_nonneg (run_schedule schedule (db, start_all requests)).1
  ∧ (∀ req input, cpi_stock input < 0 →
       ∃ e, execute req (CreateProduct input) db = (db, inl e))
  ∧ (∀ req id input s, upi_stock input = Some s → s < 0 →
       ∃ e, execute req (UpdateProduct id input) db = (db, inl e)).
Proof.
  intros db calls requests schedule.
  apply (stock_never_negative calls requests schedule db).
  apply one_product_db_stock_nonneg. lia.
Defined.

(** ** Orders and items after they are committed *)



(** ** A product in several lines of one cart *)



(** The same cart by evaluation: three lines for a stock of three, six units
    sold, and a stock of two left, which is three minus the last line. *)
Example duplicate_lines_run :
  let db' := db_after (create_order (caller 7) [line 1 2; line 1 3; line 1 1])
               (one_product_db 250 3) in
  stock_of db' 1 = Some 2 ∧ reserved db' 1 = 6.
Proof. split; reflexivity. Qed.

(** ** Anonymous callers *)

(** C10.  An unauthenticated caller, whatever the cart, gets
    [AuthenticationRequired] and the database is left as it was; taken one
    statement at a time, the request finishes with that error at its first
    step, before any statement on the database. *)
Theorem create_order_requires_authentication now items db :
  create_order {| req_user := AnonymousUser; req_now := now |} items db
    = (db, inl AuthenticationRequired)
  ∧ step (Start {| req_user := AnonymousUser; req_now := now |} items) db
    = (db, Finished (inl AuthenticationRequired)).
Proof. split; reflexivity. Qed.

(** * Further properties of the mutations and the queries *)

(** ** The outcome of each mutation *)

Lemma execute_outcome req mutation db :
  outcome req mutation db (db_after (execute req mutation) db)
    (answer (execute req mutation) db).
Proof.
  destruct mutation as [name|id name|id|input|id input|id|input|id rating comment
                       |id|items]; cbn [execute].
  - unfold create_store. run_mutation; try apply outcome_refused.
    by eapply outcome_create_store.
  - unfold update_store. run_mutation; try apply outcome_refused.
    eapply outcome_update_store; eauto. owner_checked.
  - unfold delete_store. run_mutation; try apply outcome_refused.
    eapply outcome_delete_store; eauto. owner_checked.
  - unfold create_product. run_mutation; try apply outcome_refused.
    eapply outcome_create_product; eauto; try lia. owner_checked.
  - unfold update_product. run_mutation; try apply outcome_refused.
    all: eapply outcome_update_product; eauto; try owner_checked;
      try (match goal with |- 0 ≤ default 0 (?f ?i) =>
             match goal with H : f i = _ |- _ => rewrite H; cbn; lia end end).
    all: unfold updated_product;
      repeat match goal with
             | H : upi_name _ = _ |- _ => rewrite H; clear H
             | H : upi_price _ = _ |- _ => rewrite H; clear H
             | H : upi_stock _ = _ |- _ => rewrite H; clear H
             | H : upi_description _ = _ |- _ => rewrite H; clear H
             end;
      match goal with H : products _ !! _ = Some ?row |- _ => by destruct row end.
  - unfold delete_product. run_mutation; try apply outcome_refused.
    eapply outcome_delete_product; eauto. owner_checked.
  - unfold create_review. run_mutation; try apply outcome_refused.
    match goal with H : bool_decide (_ ∨ _) = false |- _ =>
      apply bool_decide_eq_false in H end.
    match goal with H : bool_decide (map_Exists _ _) = false |- _ =>
      apply bool_decide_eq_false in H end.
    eapply (outcome_create_review req input _ _); eauto. lia.
  - unfold update_review. run_mutation; try apply outcome_refused.
    all: eapply outcome_update_review; eauto; try owner_checked.
    all: try match goal with H : bool_decide (_ ∨ _) = false |- _ =>
      apply bool_decide_eq_false in H; cbn; lia end.
    all: try (cbn; lia).
    all: match goal with H : reviews _ !! _ = Some ?r |- _ => by destruct r end.
  - unfold delete_review. run_mutation; try apply outcome_refused.
    eapply outcome_delete_review; eauto. owner_checked.
  - unfold db_after, answer. unfold_M.
    pose proof (outcome_create_order req items db) as Hout.
    destruct (create_order req items db) as [db' [e|o]]; cbn.
    + by apply (Hout db' (inl e)).
    + by apply (Hout db' (inr o)).
Qed.

Lemma execute_all_invariant (P : DB → Prop) :
  (∀ req mutation db, P db → P (db_after (execute req mutation) db)) →
  ∀ calls db, P db → P (execute_all calls db).
Proof.
  intros Hstep calls. induction calls as [|[req mutation] calls IH]; intros db HP;
    [done|].
  cbn [execute_all]. by apply IH, Hstep.
Qed.

(** ** Who may do what *)

(** X1.  Every mutation refuses an anonymous caller with
    [AuthenticationRequired] and leaves the database as it is. *)
Theorem every_mutation_requires_authentication now mutation db :
  execute {| req_user := AnonymousUser; req_now := now |} mutation db
  = (db, inl AuthenticationRequired).
Proof. by destruct mutation. Qed.

(** X2.  A mutation other than order placement that answers an error has
    written nothing: the checks come before the one write, and the changes
    that [UpdateProduct] and [UpdateReview] make to the instance in memory
    before a later check fails are never saved. *)
Theorem refused_mutation_writes_nothing req mutation db e :
  (∀ items, mutation ≠ CreateOrder items) →
  answer (execute req mutation) db = inl e →
  db_after (execute req mutation) db = db.
Proof.
  intros Hnot Hans. pose proof (execute_outcome req mutation db) as Hout.
  rewrite Hans in Hout.
  remember (db_after (execute req mutation) db) as db' eqn:Hdb'. clear Hdb'.
  inversion Hout as [? ? ? Hm Hdb| | | | | | | | | |items ? ? r Hrun Hm];
    try done.
  by destruct (Hnot items).
Qed.

Lemma refused_mutation_writes_nothing_witness :
  answer (execute (caller 7) (UpdateProduct 1 no_price)) (one_product_db 250 3)
    = inl PriceNegative
  ∧ db_after (execute (caller 7) (UpdateProduct 1 no_price)) (one_product_db 250 3)
    = one_product_db 250 3.
Proof.
  split; [reflexivity|].
  apply (refused_mutation_writes_nothing (caller 7) (UpdateProduct 1 no_price)
           (one_product_db 250 3) PriceNegative).
  - discriminate.
  - reflexivity.
Defined.

(** X3.  A mutation on a store, on a product or on a review succeeds only
    for the owner: the owner of the store, the owner of the store of the
    product (for [CreateProduct], of the store named in the input), or the
    author of the review. *)
Theorem guarded_mutation_succeeds_only_for_owner req mutation db payload :
  guarded mutation = true →
  answer (execute req mutation) db = inr payload →
  ∃ uid, owner_of db mutation = Some uid ∧ req_user req = LoggedIn uid.
Proof.
  intros Hguard Hans. pose proof (execute_outcome req mutation db) as Hout.
  rewrite Hans in Hout.
  remember (db_after (execute req mutation) db) as db' eqn:Hdb'. clear Hdb' Hans.
  inversion Hout; subst; try done;
    (eexists; split; [|eassumption]); cbn [owner_of];
    repeat match goal with
           | H : _ !! _ = Some _ |- _ => rewrite H; clear H; cbn
           end;
    congruence.
Qed.

Lemma guarded_mutation_succeeds_only_for_owner_witness :
  ∃ uid, owner_of (one_product_db 250 3) (UpdateProduct 1 (restock 9)) = Some uid
         ∧ req_user (caller 7) = LoggedIn uid.
Proof.
  apply (guarded_mutation_succeeds_only_for_owner (caller 7)
           (UpdateProduct 1 (restock 9)) (one_product_db 250 3)
           (ProductPayload {| obj_pk := 1; obj_row := shelf "pen" 250 9 |})).
  - reflexivity.
  - reflexivity.
Defined.

(** X4.  A caller who is logged in but is not the owner of the row that a
    mutation acts on is refused with a permission error, and nothing is
    written; the checks of the input come after the check of the owner. *)
Theorem non_owner_is_refused req uid mutation db owner :
  req_user req = LoggedIn uid →
  owner_of db mutation = Some owner →
  owner ≠ uid →
  ∃ message, execute req mutation db = (db, inl (PermissionDenied message)).
Proof.
  intros Hu Howner Hne.
  destruct mutation as [name|id name|id|input|id input|id|input|id rating comment
                       |id|items]; cbn [owner_of] in Howner; try done;
    cbn [execute];
    unfold update_store, delete_store, create_product, update_product,
      delete_product, update_review, delete_review, require_authenticated,
      get_store, get_product_with_store, get_review;
    unfold_M; rewrite Hu.
  - destruct (stores db !! id) as [s|]; [|done]. cbn in Howner. simplify_eq.
    rewrite bool_decide_true by done. by eexists.
  - destruct (stores db !! id) as [s|]; [|done]. cbn in Howner. simplify_eq.
    rewrite bool_decide_true by done. by eexists.
  - destruct (stores db !! cpi_store_id input) as [s|]; [|done].
    cbn in Howner. simplify_eq.
    rewrite bool_decide_true by done. by eexists.
  - destruct (products db !! id) as [row|]; [|done]. cbn in Howner.
    destruct (stores db !! product_store row) as [s|]; [|done].
    cbn in Howner. simplify_eq.
    rewrite bool_decide_true by done. by eexists.
  - destruct (products db !! id) as [row|]; [|done]. cbn in Howner.
    destruct (stores db !! product_store row) as [s|]; [|done].
    cbn in Howner. simplify_eq.
    rewrite bool_decide_true by done. by eexists.
  - destruct (reviews db !! id) as [r|]; [|done]. cbn in Howner. simplify_eq.
    rewrite bool_decide_true by done. by eexists.
  - destruct (reviews db !! id) as [r|]; [|done]. cbn in Howner. simplify_eq.
    rewrite bool_decide_true by done. by eexists.
Qed.

Lemma non_owner_is_refused_witness :
  ∃ message,
    execute (caller 8) (DeleteProduct 1) (one_product_db 250 3)
    = (one_product_db 250 3, inl (PermissionDenied message)).
Proof.
  apply (non_owner_is_refused (caller 8) 8 (DeleteProduct 1)
           (one_product_db 250 3) 7).
  - reflexivity.
  - reflexivity.
  - lia.
Defined.

(** ** Invariants of the catalogue *)

Lemma create_order_rows req items db db' r :
  create_order req items db = (db', r) →
  stores db' = stores db ∧ reviews db' = reviews db
  ∧ ∀ p, option_Forall2 same_but_stock (products db !! p) (products db' !! p).
Proof.
  assert (∀ mrow : option Product, option_Forall2 same_but_stock mrow mrow) as Hrefl.
  { intros [row|]; by constructor. }
  intros Hrun. apply create_order_effect in Hrun
    as [->|(o & lines & rest & newits & news & _ & Hchecks & _ & _ & _ & _ & _
            & Hps & Hst & Hrev)]; [done|].
  split_and!; try done. intros p.
  rewrite Hps, (saved_rows_lookup db lines news p Hchecks).
  destruct (last_line p lines); [|done].
  destruct (products db !! p) as [row|]; by constructor.
Qed.

Lemma outcome_price_nonneg req mutation db db' r :
  outcome req mutation db db' r → price_nonneg db → price_nonneg db'.
Proof.
  unfold price_nonneg.
  destruct 1 as [| | | | |? ? ? ? row s row' _ Hrow _ _ Hprice _ ->| | | | |
                 items db db' r Hrun]; intros Hinv; cbn; try done.
  - intros p row Hp. apply map_lookup_filter_Some in Hp as [Hp _].
    by apply (Hinv p row).
  - by apply map_Forall_insert_2.
  - apply map_Forall_insert_2; [|done]. cbn.
    destruct (upi_price input); cbn in *; [done|]. by apply (Hinv id row).
  - by apply map_Forall_delete.
  - apply create_order_rows in Hrun as (_ & _ & Hrows).
    intros p row' Hp. specialize (Hrows p). rewrite Hp in Hrows.
    inversion Hrows as [row ? (_ & _ & Hprice & _) Hrow|]; subst.
    rewrite Hprice. by apply (Hinv p row).
Qed.

(** X5.  No product has a negative price after any history of mutations, if
    none had before: [CreateProduct] and [UpdateProduct] refuse a negative
    price, and order placement, which saves whole product rows, saves the
    price it read. *)
Theorem price_never_negative calls db :
  price_nonneg db → price_nonneg (execute_all calls db).
Proof.
  apply execute_all_invariant. intros req mutation db0.
  apply outcome_price_nonneg with req mutation (answer (execute req mutation) db0).
  apply execute_outcome.
Qed.

Lemma price_never_negative_witness :
  price_nonneg
    (execute_all [(caller 7, UpdateProduct 1 no_price);
                  (caller 8, CreateOrder [line 1 2])]
       (one_product_db 250 3)).
Proof.
  apply (price_never_negative _ (one_product_db 250 3)).
  unfold price_nonneg. cbn.
  apply map_Forall_insert_2; [done|]. apply map_Forall_empty.
Defined.

Lemma outcome_ratings_in_range req mutation db db' r :
  outcome req mutation db db' r → ratings_in_range db → ratings_in_range db'.
Proof.
  unfold ratings_in_range.
  destruct 1 as [| | | | | | |? ? ? ? _ _ Hrating _ _
                 |? rating ? ? ? r0 r' _ Hr _ Hrating ->| |
                 items db db' r Hrun]; intros Hinv; cbn; try done.
  - intros i r0 Hi. apply map_lookup_filter_Some in Hi as [Hi _].
    by apply (Hinv i r0).
  - intros i r0 Hi. apply map_lookup_filter_Some in Hi as [Hi _].
    by apply (Hinv i r0).
  - by apply map_Forall_insert_2.
  - apply map_Forall_insert_2; [|done]. cbn.
    destruct rating; cbn in *; [done|]. by apply (Hinv id r0).
  - by apply map_Forall_delete.
  - apply create_order_rows in Hrun as (_ & -> & _). done.
Qed.

(** X6.  Every stored rating is between one and five after any history of
    mutations, if it was so before: [CreateReview] and [UpdateReview] refuse
    any other rating. *)
Theorem ratings_stay_in_range calls db :
  ratings_in_range db → ratings_in_range (execute_all calls db).
Proof.
  apply execute_all_invariant. intros req mutation db0.
  apply outcome_ratings_in_range
    with req mutation (answer (execute req mutation) db0).
  apply execute_outcome.
Qed.

Lemma ratings_stay_in_range_witness :
  ratings_in_range
    (execute_all [(caller 8, CreateReview (praise 4));
                  (caller 8, UpdateReview 1 (Some 6) None);
                  (caller 8, UpdateReview 1 (Some 5) None)]
       (one_product_db 250 3)).
Proof.
  apply (ratings_stay_in_range _ (one_product_db 250 3)).
  unfold ratings_in_range. cbn. apply map_Forall_empty.
Defined.

Lemma outcome_one_review_each req mutation db db' r :
  outcome req mutation db db' r → one_review_each db → one_review_each db'.
Proof.
  unfold one_review_each.
  destruct 1 as [| | | | | | |input db uid row _ _ _ Hnew Hfree
                 |id rating comment db uid r0 r' _ Hr _ _ ->|id db uid r0 _ _ _|
                 items db db' r Hrun]; intros Hinv; cbn; try done.
  - intros i j ri rj Hi Hj.
    apply map_lookup_filter_Some in Hi as [Hi _].
    apply map_lookup_filter_Some in Hj as [Hj _]. by apply (Hinv i j).
  - intros i j ri rj Hi Hj.
    apply map_lookup_filter_Some in Hi as [Hi _].
    apply map_lookup_filter_Some in Hj as [Hj _]. by apply (Hinv i j).
  - intros i j ri rj Hi Hj Hp Hu.
    destruct (decide (review_seq db = i)) as [<-|Hni],
             (decide (review_seq db = j)) as [<-|Hnj]; [done| | |].
    + rewrite lookup_insert_eq in Hi. rewrite lookup_insert_ne in Hj by done.
      simplify_eq. destruct Hnew. exists j, rj. cbn in *. done.
    + rewrite lookup_insert_eq in Hj. rewrite lookup_insert_ne in Hi by done.
      simplify_eq. destruct Hnew. exists i, ri. cbn in *. done.
    + rewrite lookup_insert_ne in Hi, Hj by done. by apply (Hinv i j ri rj).
  - intros i j ri rj Hi Hj Hp Hu.
    assert (∀ k rk, <[id:=updated_review rating comment r0]> (reviews db) !! k
                    = Some rk →
                    ∃ rk', reviews db !! k = Some rk'
                           ∧ review_product rk' = review_product rk
                           ∧ review_user rk' = review_user rk) as Hold.
    { intros k rk Hk. destruct (decide (id = k)) as [<-|Hnk].
      - rewrite lookup_insert_eq in Hk. simplify_eq. by exists r0.
      - rewrite lookup_insert_ne in Hk by done. by exists rk. }
    destruct (Hold i ri Hi) as (ri' & Hi' & Hpi & Hui).
    destruct (Hold j rj Hj) as (rj' & Hj' & Hpj & Huj).
    apply (Hinv i j ri' rj'); congruence.
  - intros i j ri rj Hi Hj.
    apply lookup_delete_Some in Hi as [_ Hi].
    apply lookup_delete_Some in Hj as [_ Hj]. by apply (Hinv i j).
  - apply create_order_rows in Hrun as (_ & -> & _). done.
Qed.

(** X7.  No user has two reviews of one product after any history of
    mutations, if none had before: [CreateReview] refuses a second review,
    and [UpdateReview] changes neither the product nor the author of a
    review. *)
Theorem one_review_per_product_and_user calls db :
  one_review_each db → one_review_each (execute_all calls db).
Proof.
  apply execute_all_invariant. intros req mutation db0.
  apply outcome_one_review_each
    with req mutation (answer (execute req mutation) db0).
  apply execute_outcome.
Qed.

Lemma one_review_per_product_and_user_witness :
  one_review_each
    (execute_all [(caller 8, CreateReview (praise 4));
                  (caller 8, CreateReview (praise 5));
                  (caller 9, CreateReview (praise 2))]
       (one_product_db 250 3)).
Proof.
  apply (one_review_per_product_and_user _ (one_product_db 250 3)).
  intros i j ri rj Hi. cbn in Hi. by rewrite lookup_empty in Hi.
Defined.

(** X8.  After a review is created, another [CreateReview] of the same
    caller for the same product is refused and writes nothing, whatever
    its comment; with a rating between one and five the error is
    [AlreadyReviewed]. *)
Theorem second_review_is_refused req input db db' id review now' input' :
  create_review req input db = (db', inr (id, review)) →
  cri_product_id input' = cri_product_id input →
  ∃ e, create_review {| req_user := req_user req; req_now := now' |} input' db'
       = (db', inl e)
       ∧ (1 ≤ cri_rating input' ≤ 5 → e = AlreadyReviewed).
Proof.
  intros Hrun Hsame. unfold create_review in *. revert Hrun.
  unfold require_authenticated, get_product, review_exists, objects_create_review.
  unfold_M. cbn [req_user req_now]. rewrite Hsame.
  destruct (req_user req) as [|uid]; [done|].
  destruct (products db !! cri_product_id input) as [row|] eqn:Hrow; [|done].
  cbn [obj_pk].
  destruct (bool_decide (cri_rating input < 1 ∨ cri_rating input > 5)); [done|].
  destruct (bool_decide (map_Exists _ (reviews db))); [done|].
  destruct (reviews db !! review_seq db) eqn:Hfree; [done|].
  intros [= <- <- <-]. cbn. rewrite Hrow. cbn [obj_pk].
  destruct (bool_decide (cri_rating input' < 1 ∨ cri_rating input' > 5)) eqn:Hrange.
  - eexists. split; [done|]. apply bool_decide_eq_true in Hrange. lia.
  - rewrite bool_decide_true; [by eexists|].
    eexists (review_seq db), _. split; [apply lookup_insert_eq|]. done.
Qed.

Lemma second_review_is_refused_witness :
  let db := one_product_db 250 3 in
  let db' := db_after (create_review (caller 8) (praise 4)) db in
  ∃ e, create_review {| req_user := req_user (caller 8); req_now := 200 |}
         (praise 5) db'
       = (db', inl e)
       ∧ (1 ≤ cri_rating (praise 5) ≤ 5 → e = AlreadyReviewed).
Proof.
  intros db db'.
  apply (second_review_is_refused (caller 8) (praise 4) db db' 1
           {| review_product := 1; review_user := 8; review_rating := 4;
              review_comment := "writes well"; review_created_at := 100 |}
           200 (praise 5)).
  - reflexivity.
  - reflexivity.
Defined.

Lemma sum_Z_nonneg l : Forall (λ x, 0 ≤ x) l → 0 ≤ sum_Z l.
Proof.
  induction 1 as [|x l Hx _ IH]; [done|]. rewrite sum_Z_cons. lia.
Qed.

(** The rows that an order placement adds, whatever it answers. *)
Lemma create_order_sales req items db db' r :
  create_order req items db = (db', r) →
  db' = db
  ∨ ∃ o newits,
      orders db' = orders db ++ [o]
      ∧ order_items db' = order_items db ++ newits
      ∧ Forall (λ it, 0 < oi_quantity it
                      ∧ is_Some (products db !! oi_product it)) newits
      ∧ (price_nonneg db →
         0 ≤ order_total o ∧ Forall (λ it, 0 ≤ oi_price it) newits).
Proof.
  intros Hrun. apply create_order_spec in Hrun
    as [[-> _]|(uid & news & o & _ & _ & Hchecks & Ho & _ & rp & Hper & _)];
    [by left|right].
  apply persist_items_shape in Hper
    as (done & rest & newits & -> & Hits & Hsold & _ & Hsame & _).
  destruct Hsame as (_ & Hos & _).
  exists o, newits. split_and!; try done.
  - apply Forall2_app_inv_r in Hchecks as (lines & rest' & Hdone & _ & _).
    pose proof (checks_sold db o lines done newits Hdone Hsold) as Hlines.
    eapply Forall2_Forall_r; [exact Hlines|]. apply Forall_true.
    intros item it (row & Hrow & Hq & _ & Hp & Hqty & _).
    rewrite Hp, Hqty, Hrow. split; [lia|done].
  - intros Hprice. split.
    + rewrite Ho. cbn. apply sum_Z_nonneg, Forall_fmap.
      eapply Forall2_Forall_r; [exact Hchecks|]. apply Forall_true.
      intros item d (row & Hrow & Hq & ->). cbn.
      pose proof (Hprice _ row Hrow) as Hpos. cbn in Hpos. nia.
    + apply Forall2_app_inv_r in Hchecks as (lines & rest' & Hdone & _ & _).
      pose proof (checks_sold db o lines done newits Hdone Hsold) as Hlines.
      eapply Forall2_Forall_r; [exact Hlines|]. apply Forall_true.
      intros item it (row & Hrow & Hq & _ & _ & _ & ->).
      pose proof (Hprice _ row Hrow) as Hpos. cbn in Hpos. nia.
Qed.

Lemma outcome_references_kept req mutation db db' r :
  outcome req mutation db db' r → references_kept db → references_kept db'.
Proof.
  unfold references_kept.
  destruct 1 as [|name db uid _ _|id name db uid s _ Hs _|id db uid s _ Hs _
                 |input db uid s _ Hs _ _ _ Hfree
                 |id input db uid row s row' _ Hrow Hs _ _ _ ->
                 |id db uid row s _ Hrow _ _|input db uid row _ Hrow _ _ _
                 |id rating comment db uid r0 r' _ Hr _ _ ->|id db uid r0 _ _ _|
                 items db db' r Hrun]; intros (Hstore & Hproduct & Hitem);
    cbn; try done.
  - split_and!; try done. intros p row Hp.
    apply lookup_insert_is_Some'. right. by apply (Hstore p row).
  - split_and!; try done. intros p row Hp.
    apply lookup_insert_is_Some'. right. by apply (Hstore p row).
  - assert (∀ p, is_Some (products db !! p) → product_in_store db id p = false →
                 is_Some (filter (λ kv, product_store kv.2 ≠ id) (products db) !! p))
      as Hkeep.
    { intros p [row Hp]. unfold product_in_store. rewrite Hp.
      intros Hout%bool_decide_eq_false. exists row.
      by apply map_lookup_filter_Some. }
    split_and!.
    + intros p row Hp. apply map_lookup_filter_Some in Hp as [Hp Hne].
      cbn in Hne. rewrite lookup_delete_ne by done. by apply (Hstore p row).
    + intros i r0 Hi. apply map_lookup_filter_Some in Hi as [Hi Hout].
      cbn in Hout. apply Hkeep; [|done]. by apply (Hproduct i r0).
    + rewrite Forall_forall in Hitem. apply Forall_forall. intros it Hit.
      apply list_elem_of_filter in Hit as [Hout Hit]. apply Hkeep; [|done].
      by apply Hitem.
  - split_and!.
    + apply map_Forall_insert_2; [cbn; by rewrite Hs|done].
    + intros i r0 Hi. apply lookup_insert_is_Some'. right.
      by apply (Hproduct i r0).
    + eapply Forall_impl; [exact Hitem|]. cbn. intros it Hit.
      apply lookup_insert_is_Some'. by right.
  - split_and!.
    + apply map_Forall_insert_2; [cbn; by rewrite Hs|done].
    + intros i r0 Hi. apply lookup_insert_is_Some'. right.
      by apply (Hproduct i r0).
    + eapply Forall_impl; [exact Hitem|]. cbn. intros it Hit.
      apply lookup_insert_is_Some'. by right.
  - split_and!.
    + by apply map_Forall_delete.
    + intros i r0 Hi. apply map_lookup_filter_Some in Hi as [Hi Hne].
      cbn in Hne. rewrite lookup_delete_ne by done. by apply (Hproduct i r0).
    + rewrite Forall_forall in Hitem. apply Forall_forall. intros it Hit.
      apply list_elem_of_filter in Hit as [Hne Hit].
      rewrite lookup_delete_ne by done. by apply Hitem.
  - split_and!; try done. apply map_Forall_insert_2; [cbn; by rewrite Hrow|done].
  - split_and!; try done. apply map_Forall_insert_2; [|done]. cbn.
    by apply (Hproduct id r0).
  - split_and!; try done. by apply map_Forall_delete.
  - pose proof (create_order_rows _ _ _ _ _ Hrun) as (Hst & Hrev & Hrows).
    assert (∀ p, is_Some (products db !! p) → is_Some (products db' !! p))
      as Hkeep.
    { intros p [row Hp]. specialize (Hrows p). rewrite Hp in Hrows.
      inversion Hrows. by eexists. }
    split_and!.
    + intros p row' Hp. specialize (Hrows p). rewrite Hp in Hrows.
      inversion Hrows as [row ? (_ & Hsame & _) Hrow|]; subst.
      rewrite Hst, Hsame. by apply (Hstore p row).
    + rewrite Hrev. intros i r0 Hi. by apply Hkeep, (Hproduct i r0).
    + apply create_order_sales in Hrun
        as [->|(o & newits & _ & -> & Hnew & _)]; [done|].
      apply Forall_app. split.
      * eapply Forall_impl; [exact Hitem|]. cbn. auto.
      * eapply Forall_impl; [exact Hnew|]. cbn. intros it [_ Hit]. auto.
Qed.

(** X9.  The references into the store and product tables hold after any
    history of mutations, if they held before: a product is created in a
    store that is there, a review for a product that is there, an item is
    sold of a product that is there, and deleting a store or a product
    takes the rows that point to it along. *)
Theorem references_stay_valid calls db :
  references_kept db → references_kept (execute_all calls db).
Proof.
  apply execute_all_invariant. intros req mutation db0.
  apply outcome_references_kept
    with req mutation (answer (execute req mutation) db0).
  apply execute_outcome.
Qed.

Lemma references_stay_valid_witness :
  references_kept
    (execute_all [(caller 8, CreateReview (praise 4));
                  (caller 8, CreateOrder [line 1 2]);
                  (caller 7, DeleteStore 1)]
       (one_product_db 250 3)).
Proof.
  apply (references_stay_valid _ (one_product_db 250 3)).
  unfold references_kept. cbn. split_and!.
  - apply map_Forall_insert_2; [|apply map_Forall_empty]. cbn.
    rewrite lookup_insert_eq. by eexists.
  - apply map_Forall_empty.
  - constructor.
Defined.

(** ** Invariants of the sales *)

Lemma outcome_amounts_valid req mutation db db' r :
  outcome req mutation db db' r → amounts_valid db → amounts_valid db'.
Proof.
  intros Hout (Hprice & Hitems & Horders). split.
  { by eapply outcome_price_nonneg. }
  destruct Hout as [| | | | | | | | | |items db db' r Hrun]; cbn; try done.
  - split; [|done]. by apply Forall_filter_keep.
  - split; [|done]. by apply Forall_filter_keep.
  - apply create_order_sales in Hrun
      as [->|(o & newits & -> & -> & Hnew & Hamounts)]; [done|].
    destruct (Hamounts Hprice) as [Htotal Hprices].
    split; apply Forall_app; (split; [done|]).
    + apply Forall_and. split; [|done].
      eapply Forall_impl; [exact Hnew|]. by intros it [? _].
    + by repeat constructor.
Qed.

(** X10.  After any history of mutations on a database whose amounts are
    valid, they still are: no price is negative, every order item sells a
    positive quantity at a price that is not negative, and no order total
    is negative. *)
Theorem amounts_stay_valid calls db :
  amounts_valid db → amounts_valid (execute_all calls db).
Proof.
  apply execute_all_invariant. intros req mutation db0.
  apply outcome_amounts_valid
    with req mutation (answer (execute req mutation) db0).
  apply execute_outcome.
Qed.

Lemma amounts_stay_valid_witness :
  amounts_valid
    (execute_all [(caller 8, CreateOrder [line 1 2; line 1 1]);
                  (caller 7, UpdateProduct 1 (restock 5));
                  (caller 9, CreateOrder [line 1 4])]
       (one_product_db 250 3)).
Proof.
  apply (amounts_stay_valid _ (one_product_db 250 3)).
  unfold amounts_valid, price_nonneg. cbn. split_and!.
  - apply map_Forall_insert_2; [done|]. apply map_Forall_empty.
  - constructor.
  - constructor.
Defined.

(** X11.  Order placement changes nothing of the catalogue but stock: it
    adds and removes no product, it leaves the name, the store, the price
    and the description of every product as they are, and it leaves the
    store table and the review table as they are. *)
Theorem create_order_changes_only_stock req items db p :
  let db' := db_after (create_order req items) db in
  stores db' = stores db ∧ reviews db' = reviews db
  ∧ option_Forall2 same_but_stock (products db !! p) (products db' !! p).
Proof.
  intros db'. subst db'. unfold db_after.
  destruct (create_order req items db) as [db' r] eqn:Hrun. cbn.
  apply create_order_rows in Hrun as (Hst & Hrev & Hrows). done.
Qed.

(** ** Products and stores *)





(** X14.  A successful [DeleteStore] removes the store and exactly the
    products of the store, and with them exactly the order items and the
    reviews of those products; the other stores, the products of the other
    stores and the order table stay as they are. *)
Theorem delete_store_takes_its_products req id db payload :
  answer (execute req (DeleteStore id)) db = inr payload →
  let db' := db_after (execute req (DeleteStore id)) db in
  let sold_here p := ∃ row, products db !! p = Some row ∧ product_store row = id in
  resolve_store id db' = inl (Raised (StoreNotFound id))
  ∧ (∀ s, s ≠ id → resolve_store s db' = resolve_store s db)
  ∧ (∀ p row, products db' !! p = Some row
              ↔ products db !! p = Some row ∧ product_store row ≠ id)
  ∧ resolve_total_products id db' = 0%nat
  ∧ (∀ it, it ∈ order_items db' ↔ it ∈ order_items db ∧ ¬ sold_here (oi_product it))
  ∧ (∀ i r, reviews db' !! i = Some r
            ↔ reviews db !! i = Some r ∧ ¬ sold_here (review_product r))
  ∧ orders db' = orders db.
Proof.
  intros Hans db' sold_here. subst db'.
  pose proof (execute_outcome req (DeleteStore id) db) as Hout.
  rewrite Hans in Hout.
  remember (db_after (execute req (DeleteStore id)) db) as db' eqn:Hdb'.
  clear Hdb' Hans.
  inversion Hout as [| | |? ? uid s Hu Hs Ho| | | | | | |]; subst.
  assert (∀ p, product_in_store db id p = false ↔ ¬ sold_here p) as Hin.
  { intros p. unfold product_in_store, sold_here.
    destruct (products db !! p) as [row|].
    - rewrite bool_decide_eq_false. split.
      + intros Hne (row' & [= <-] & Hst). done.
      + intros Hno Hst. apply Hno. by exists row.
    - split; [|done]. by intros _ (row & [=] & _). }
  unfold resolve_store, resolve_total_products. cbn. split_and!.
  - by rewrite lookup_delete_eq.
  - intros s' Hne. by rewrite lookup_delete_ne.
  - intros p row. by rewrite map_lookup_filter_Some.
  - apply map_size_empty_iff, map_empty. intros p.
    apply map_lookup_filter_None. right. intros row Hrow.
    apply map_lookup_filter_Some in Hrow as [_ Hne]. cbn in *. done.
  - intros it. by rewrite list_elem_of_filter, Hin, (comm and).
  - intros i r. by rewrite map_lookup_filter_Some, <- Hin.
  - done.
Qed.

Lemma delete_store_takes_its_products_witness :
  let db := db_with_order in
  let db' := db_after (execute (caller 7) (DeleteStore 1)) db in
  let sold_here p := ∃ row, products db !! p = Some row ∧ product_store row = 1 in
  resolve_store 1 db' = inl (Raised (StoreNotFound 1))
  ∧ (∀ s, s ≠ 1 → resolve_store s db' = resolve_store s db)
  ∧ (∀ p row, products db' !! p = Some row
              ↔ products db !! p = Some row ∧ product_store row ≠ 1)
  ∧ resolve_total_products 1 db' = 0%nat
  ∧ (∀ it, it ∈ order_items db' ↔ it ∈ order_items db ∧ ¬ sold_here (oi_product it))
  ∧ (∀ i r, reviews db' !! i = Some r
            ↔ reviews db !! i = Some r ∧ ¬ sold_here (review_product r))
  ∧ orders db' = orders db.
Proof.
  intros db.
  apply (delete_store_takes_its_products (caller 7) 1 db (SuccessPayload true)).
  reflexivity.
Defined.

(** ** Order placement on a well-formed database *)




(** ** Reading orders *)

Lemma filter_one {A} (P : A → Prop) `{∀ x, Decision (P x)} (l : list A) (x : A) :
  Forall (λ y, ¬ P y) l → P x → filter P (l ++ [x]) = [x].
Proof.
  intros Hl Hx. rewrite filter_app, (filter_none P l Hl).
  by rewrite filter_cons_True.
Qed.

(** X16.  An order that has been committed is read back: [resolve_order]
    with its key answers the order row, every other key answers as before,
    and [resolve_my_orders] of the caller answers the caller's orders of
    before followed by the new one, while the list of every other user is
    unchanged. *)
Theorem committed_order_is_read_back req items db db' o :
  create_order req items db = (db', inr o) →
  resolve_order (order_id o) db' = inr o
  ∧ (∀ id, id ≠ order_id o → resolve_order id db' = resolve_order id db)
  ∧ (∃ mine, resolve_my_orders req db = inr mine
             ∧ resolve_my_orders req db' = inr (mine ++ [o]))
  ∧ (∀ now uid, req_user req ≠ LoggedIn uid →
       resolve_my_orders {| req_user := LoggedIn uid; req_now := now |} db'
       = resolve_my_orders {| req_user := LoggedIn uid; req_now := now |} db).
Proof.
  intros Hrun. apply create_order_committed in Hrun
    as (uid & newits & Hu & _ & Ho & Hfree & _ & Hos & _).
  assert (order_user o = uid) as Huser by (by rewrite Ho).
  assert (order_id o = order_seq db) as Hid by (by rewrite Ho).
  unfold resolve_order, resolve_my_orders. rewrite Hos, Hu. split_and!.
  - rewrite filter_one; [done| |done].
    apply Forall_forall. intros o' Ho'. rewrite Hid.
    by eapply order_id_taken_false.
  - intros id Hne. rewrite filter_app.
    rewrite (filter_cons_False _ o) by (intros Heq; by apply Hne).
    by rewrite filter_nil, app_nil_r.
  - eexists. split; [done|]. rewrite filter_app. f_equal.
    by rewrite filter_cons_True.
  - intros now uid' Hne. cbn. rewrite filter_app.
    rewrite (filter_cons_False _ o) by (intros Heq; apply Hne; congruence).
    by rewrite filter_nil, app_nil_r.
Qed.

Lemma committed_order_is_read_back_witness :
  let req := caller 8 in
  let db := one_product_db 250 3 in
  let db' := db_after (create_order req [line 1 1]) db in
  let o := {| order_id := 1; order_user := 8; order_total := 250;
              order_ordered_at := 100 |} in
  resolve_order (order_id o) db' = inr o
  ∧ (∀ id, id ≠ order_id o → resolve_order id db' = resolve_order id db)
  ∧ (∃ mine, resolve_my_orders req db = inr mine
             ∧ resolve_my_orders req db' = inr (mine ++ [o]))
  ∧ (∀ now uid, req_user req ≠ LoggedIn uid →
       resolve_my_orders {| req_user := LoggedIn uid; req_now := now |} db'
       = resolve_my_orders {| req_user := LoggedIn uid; req_now := now |} db).
Proof.
  intros req db db' o.
  apply (committed_order_is_read_back req [line 1 1] db db' o).
  reflexivity.
Defined.

(** ** Listing products *)

Lemma truthy_Some x n : truthy x = Some n ↔ x = Some n ∧ n ≠ 0.
Proof.
  unfold truthy. destruct x as [m|].
  - destruct (Z.eqb_spec m 0) as [->|Hm]; split.
    + done.
    + by intros [[= <-] Hn].
    + by intros [= <-].
    + by intros [[= <-] _].
  - split; [done|]. by intros [[=] _].
Qed.

Lemma truthy_None x : truthy x = None ↔ ∀ n, x = Some n → n = 0.
Proof.
  unfold truthy. destruct x as [m|].
  - destruct (Z.eqb_spec m 0) as [->|Hm]; split.
    + by intros _ n [= <-].
    + done.
    + done.
    + intros Hzero. by destruct Hm, (Hzero m).
  - split; [|done]. by intros _ n [=].
Qed.

Lemma elem_of_filter_truthy {A} (P : Z → A → Prop)
    `{∀ n x, Decision (P n x)} (arg : option Z) (qs : list A) (x : A) :
  x ∈ match truthy arg with Some n => filter (P n) qs | None => qs end
  ↔ x ∈ qs ∧ ∀ n, arg = Some n → n ≠ 0 → P n x.
Proof.
  destruct (truthy arg) as [n|] eqn:Harg.
  - apply truthy_Some in Harg as [-> Hn]. rewrite list_elem_of_filter. split.
    + intros [HP Hx]. split; [done|]. by intros ? [= <-].
    + intros [Hx HP]. split; [|done]. by apply HP.
  - split.
    + intros Hx. split; [done|]. intros n Hn Hne.
      destruct Hne. by eapply truthy_None.
    + by intros [Hx _].
Qed.

Lemma elem_of_filter_search icontains search qs kp :
  kp ∈ filter_search icontains search qs
  ↔ kp ∈ qs
    ∧ ∀ s, search = Some s → s ≠ EmptyString →
           icontains (product_name kp.2) s
           || icontains (product_description kp.2) s = true.
Proof.
  unfold filter_search. destruct search as [[|c s]|].
  - split; [|by intros [Hx _]]. intros Hx. split; [done|]. by intros ? [= <-].
  - rewrite list_elem_of_filter. split.
    + intros [HP Hx]. split; [done|]. by intros ? [= <-].
    + intros [Hx HP]. split; [|done]. by apply HP.
  - split; [|by intros [Hx _]]. intros Hx. split; [done|]. by intros ? [=].
Qed.

Lemma filters_sublist icontains search store_id min_price max_price
    (qs : list (Z * Product)) :
  filter_max_price max_price
    (filter_min_price min_price
       (filter_store store_id (filter_search icontains search qs)))
  `sublist_of` qs.
Proof.
  unfold filter_max_price, filter_min_price, filter_store, filter_search.
  repeat match goal with
         | |- context [match ?x with _ => _ end] => destruct x
         end;
    repeat (etrans; [apply sublist_filter|]); done.
Qed.

(** X17.  Without pagination, [resolve_products] answers every product of
    the table that passes the filters, once, and nothing else.  A filter
    whose argument is absent, zero or the empty string asks nothing: a
    [store_id], [min_price] or [max_price] of zero does not filter. *)
Theorem products_listed_pass_the_filters icontains search store_id min_price
    max_price db :
  ∃ rows,
    resolve_products icontains search store_id min_price max_price None None db
    = inr rows
    ∧ NoDup rows
    ∧ ∀ k row, (k, row) ∈ rows
               ↔ products db !! k = Some row
                 ∧ passes_filters icontains search store_id min_price max_price row.
Proof.
  eexists. split; [reflexivity|]. split.
  - eapply sublist_NoDup; [apply NoDup_map_to_list|apply filters_sublist].
  - intros k row. unfold filter_max_price, filter_min_price, filter_store.
    rewrite !elem_of_filter_truthy, elem_of_filter_search, elem_of_map_to_list.
    unfold passes_filters. cbn. tauto.
Qed.

Lemma paginate_spec {A} (first offset : option Z) (qs : list A) :
  match paginate first offset qs with
  | inl e =>
      e = NegativeIndexing ∧ (default 0 offset < 0 ∨ default 0 first < 0)
  | inr page =>
      0 ≤ default 0 offset ∧ 0 ≤ default 0 first
      ∧ page `sublist_of` qs
      ∧ (0 < default 0 first → (length page ≤ Z.to_nat (default 0%Z first))%nat)
      ∧ (default 0 first = 0 → page = drop (Z.to_nat (default 0 offset)) qs)
  end.
Proof.
  unfold paginate, slice_from, slice_to.
  destruct (truthy offset) as [n|] eqn:Hoff.
  - apply truthy_Some in Hoff as [-> Hn]. cbn.
    destruct (Z.ltb_spec n 0) as [Hneg|Hpos]; [split; [done|by left]|].
    destruct (truthy first) as [m|] eqn:Hfirst.
    + apply truthy_Some in Hfirst as [-> Hm]. cbn.
      destruct (Z.ltb_spec m 0) as [Hneg'|Hpos']; [split; [done|by right]|].
      split_and!; try done.
      * etrans; [apply sublist_take|apply sublist_drop].
      * intros _. rewrite length_take. lia.
    + assert (default 0 first = 0) as ->.
      { destruct first as [m|]; [|done]. cbn. by eapply truthy_None. }
      split_and!; try done. apply sublist_drop.
  - assert (default 0 offset = 0) as ->.
    { destruct offset as [n|]; [|done]. cbn. by eapply truthy_None. }
    destruct (truthy first) as [m|] eqn:Hfirst.
    + apply truthy_Some in Hfirst as [-> Hm]. cbn.
      destruct (Z.ltb_spec m 0) as [Hneg'|Hpos']; [split; [done|by right]|].
      split_and!; try done.
      * apply sublist_take.
      * intros _. rewrite length_take. lia.
    + assert (default 0 first = 0) as ->.
      { destruct first as [m|]; [|done]. cbn. by eapply truthy_None. }
      by split_and!.
Qed.

(** X18.  A page of [resolve_products].  A negative [offset] or [first] is
    refused.  Otherwise the page is part of the unpaginated answer, in its
    order, so every row on it is a product that passes the filters; with a
    positive [first] it has at most [first] rows; and a [first] of zero,
    like an absent one, sets no limit: the page is all that follows the
    offset. *)
Theorem products_page icontains search store_id min_price max_price first
    offset db :
  ∃ rows,
    resolve_products icontains search store_id min_price max_price None None db
    = inr rows
    ∧ match resolve_products icontains search store_id min_price max_price
              first offset db with
      | inl e =>
          e = NegativeIndexing ∧ (default 0 offset < 0 ∨ default 0 first < 0)
      | inr page =>
          0 ≤ default 0 offset ∧ 0 ≤ default 0 first
          ∧ page `sublist_of` rows
          ∧ (∀ k row, (k, row) ∈ page →
               products db !! k = Some row
               ∧ passes_filters icontains search store_id min_price max_price row)
          ∧ (0 < default 0 first → (length page ≤ Z.to_nat (default 0%Z first))%nat)
          ∧ (default 0 first = 0 → page = drop (Z.to_nat (default 0 offset)) rows)
      end.
Proof.
  destruct (products_listed_pass_the_filters icontains search store_id min_price
              max_price db) as (rows & Hrows & _ & Hin).
  exists rows. split; [exact Hrows|].
  unfold resolve_products in *. cbn zeta in *.
  injection Hrows as Hrows. rewrite Hrows.
  pose proof (paginate_spec first offset rows) as Hpage.
  destruct (paginate first offset rows) as [e|page]; [done|].
  destruct Hpage as (Hoff & Hfirst & Hsub & Hlen & Hall).
  split_and!; try done.
  intros k row Hk. apply Hin. by eapply elem_of_sublist.
Qed.
